(** * YC cofounder matcher: response parser, candidate log, session loop
      and line-wrapping formatter

    A shallow embedding of [main_selenium.py] and [format_text.py].

    Python [str] values are modelled as Rocq strings, read as sequences of
    code points below 256.  On that range Python's [str.isspace] (which is
    also the regular-expression class [\s]) holds of the code points
    9-13, 28-32, 133 and 160, and the case-insensitive comparison of the
    [re] module against an ASCII pattern letter accepts exactly the two
    ASCII cases of that letter. *)

From Stdlib Require Import Bool Arith Lia List ZArith Ascii String.
Import ListNotations.
Local Open Scope list_scope.
Local Open Scope string_scope.

(** ** Characters *)

Module Chr.

(** [str.isspace] on one code point. *)
Definition isspace (c : ascii) : bool :=
  let n := nat_of_ascii c in
  (((9 <=? n) && (n <=? 13)) || ((28 <=? n) && (n <=? 32))
   || (n =? 133) || (n =? 160))%nat.

(** Lower-casing and upper-casing of the ASCII letters; every other code
    point is left alone.  The source applies [upper()] only to the token
    captured by [(YES|NO)], which holds ASCII letters only. *)
Definition lower (c : ascii) : ascii :=
  let n := nat_of_ascii c in
  if ((65 <=? n) && (n <=? 90))%nat then ascii_of_nat (n + 32) else c.

Definition upper (c : ascii) : ascii :=
  let n := nat_of_ascii c in
  if ((97 <=? n) && (n <=? 122))%nat then ascii_of_nat (n - 32) else c.

(** Comparison of a pattern character [p] with a text character [c];
    [ci] is the [re.IGNORECASE] flag. *)
Definition matches (ci : bool) (p c : ascii) : bool :=
  if ci then Ascii.eqb (lower p) (lower c) else Ascii.eqb p c.

Definition newline : ascii := "010".
Definition carriage_return : ascii := "013".

End Chr.

(** ** The string methods the two programs use *)

Module Str.

Definition is_empty (s : string) : bool :=
  match s with EmptyString => true | String _ _ => false end.

(** [s.startswith(p)] *)
Fixpoint startswith (s p : string) : bool :=
  match p with
  | EmptyString => true
  | String a p' =>
      match s with
      | EmptyString => false
      | String c s' => Ascii.eqb c a && startswith s' p'
      end
  end.

(** [c in s] for a one-character [c] *)
Fixpoint contains_chr (c : ascii) (s : string) : bool :=
  match s with
  | EmptyString => false
  | String a s' => Ascii.eqb a c || contains_chr c s'
  end.

(** [s.lstrip()] *)
Fixpoint lstrip (s : string) : string :=
  match s with
  | EmptyString => EmptyString
  | String c s' => if Chr.isspace c then lstrip s' else s
  end.

(** [s.rstrip()] *)
Fixpoint rstrip (s : string) : string :=
  match s with
  | EmptyString => EmptyString
  | String c s' =>
      let r := rstrip s' in
      if Chr.isspace c && is_empty r then EmptyString else String c r
  end.

(** [s.strip()] *)
Definition strip (s : string) : string := rstrip (lstrip s).

(** [s.upper()] (see [Chr.upper]) *)
Fixpoint upper (s : string) : string :=
  match s with
  | EmptyString => EmptyString
  | String c s' => String (Chr.upper c) (upper s')
  end.

(** [s.lower()] *)
Fixpoint lower (s : string) : string :=
  match s with
  | EmptyString => EmptyString
  | String c s' => String (Chr.lower c) (lower s')
  end.

(** [c * n] for a one-character [c] *)
Fixpoint repeat (c : ascii) (n : nat) : string :=
  match n with
  | O => EmptyString
  | S n' => String c (repeat c n')
  end.

(** [sep.join(parts)] *)
Fixpoint join (sep : string) (parts : list string) : string :=
  match parts with
  | [] => EmptyString
  | [x] => x
  | x :: rest => x ++ sep ++ join sep rest
  end.

(** [s.split(sep)] for a one-character [sep]: never the empty list. *)
Fixpoint split_chr (sep : ascii) (s : string) : list string :=
  match s with
  | EmptyString => [EmptyString]
  | String c s' =>
      if Ascii.eqb c sep then EmptyString :: split_chr sep s'
      else match split_chr sep s' with
           | l :: ls => String c l :: ls
           | [] => [String c EmptyString]
           end
  end.

(** [s.split(sep, 1)] under the guard [sep in s]: [None] is the case
    where the separator does not occur. *)
Fixpoint split_once (sep : ascii) (s : string) : option (string * string) :=
  match s with
  | EmptyString => None
  | String c s' =>
      if Ascii.eqb c sep then Some (EmptyString, s')
      else match split_once sep s' with
           | Some (h, t) => Some (String c h, t)
           | None => None
           end
  end.

Definition cons_word (w : string) (ws : list string) : list string :=
  if is_empty w then ws else w :: ws.

(** The word fragment that starts the text, and the words after it. *)
Fixpoint words_from (s : string) : string * list string :=
  match s with
  | EmptyString => (EmptyString, [])
  | String c s' =>
      let (w, ws) := words_from s' in
      if Chr.isspace c then (EmptyString, cons_word w ws)
      else (String c w, ws)
  end.

(** [s.split()]: the maximal runs of non-whitespace characters. *)
Definition split_ws (s : string) : list string :=
  let (w, ws) := words_from s in cons_word w ws.

End Str.

(** ** A backtracking matcher for the three patterns of the parser

    The combinators are written in continuation-passing style: a matcher
    takes the continuation that matches the rest of the pattern, and a
    greedy repetition tries the longer match first and falls back to the
    shorter one when the continuation fails, as the [re] engine does. *)

Module Re.

Section Matcher.
Context {A : Type}.

Definition cont := string -> option A.

(** A literal, compared under the [re.IGNORECASE] flag [ci]. *)
Fixpoint lit (ci : bool) (p : string) (k : cont) (s : string) : option A :=
  match p with
  | EmptyString => k s
  | String a p' =>
      match s with
      | EmptyString => None
      | String c s' => if Chr.matches ci a c then lit ci p' k s' else None
      end
  end.

(** [cls*], greedy, not captured. *)
Fixpoint star (cls : ascii -> bool) (k : cont) (s : string) : option A :=
  match s with
  | EmptyString => k s
  | String c s' =>
      if cls c then
        match star cls k s' with
        | Some r => Some r
        | None => k s
        end
      else k s
  end.

(** The tail of a captured greedy repetition: [acc] is the text the
    group has consumed so far. *)
Fixpoint star_group (cls : ascii -> bool) (acc : string)
    (k : string -> cont) (s : string) : option A :=
  match s with
  | EmptyString => k acc s
  | String c s' =>
      if cls c then
        match star_group cls (acc ++ String c EmptyString) k s' with
        | Some r => Some r
        | None => k acc s
        end
      else k acc s
  end.

(** [(cls+)], greedy; the continuation receives the captured text. *)
Definition plus_group (cls : ascii -> bool) (k : string -> cont)
    (s : string) : option A :=
  match s with
  | EmptyString => None
  | String c s' =>
      if cls c then star_group cls (String c EmptyString) k s' else None
  end.

(** One alternative of a captured alternation: the pattern word [p]
    matched against the text; [acc] collects the text characters. *)
Fixpoint word_group (ci : bool) (p : string) (acc : string)
    (k : string -> cont) (s : string) : option A :=
  match p with
  | EmptyString => k acc s
  | String a p' =>
      match s with
      | EmptyString => None
      | String c s' =>
          if Chr.matches ci a c
          then word_group ci p' (acc ++ String c EmptyString) k s'
          else None
      end
  end.

(** [(w1|w2|...)]: the alternatives are tried from left to right. *)
Fixpoint alt_group (ci : bool) (alts : list string)
    (k : string -> cont) (s : string) : option A :=
  match alts with
  | [] => None
  | p :: rest =>
      match word_group ci p EmptyString k s with
      | Some r => Some r
      | None => alt_group ci rest k s
      end
  end.

(** [re.search]: the match at the leftmost start offset at which the
    pattern matches, the offset past the last character included. *)
Fixpoint search (m : cont) (s : string) : option A :=
  match m s with
  | Some r => Some r
  | None =>
      match s with
      | EmptyString => None
      | String _ s' => search m s'
      end
  end.

End Matcher.

(** The end of a pattern with one group: the match object, of which the
    parser reads [group(1)] only. *)
Definition group1 : string -> cont (A := string) := fun g _ => Some g.

Definition any_char : ascii -> bool := fun _ => true.
Definition not_newline (c : ascii) : bool := negb (Ascii.eqb c Chr.newline).

End Re.

(** ** The response parser of [analyze_text_for_interests] *)

Module Parser.

(** The value of [experience_match and experience_match.group(1).upper()
    == "YES"]: Python's [and] returns its left operand when that operand
    is falsy, so the expression is [None] when the search found nothing
    and a [bool] otherwise. *)
Inductive flag : Type :=
  | PyNone
  | PyBool (b : bool).

(** Truth value testing, as done by [if has_experience:]. *)
Definition truthy (v : flag) : bool :=
  match v with
  | PyNone => false
  | PyBool b => b
  end.

(** The returned tuple [(has_experience, person_name, summary)]. *)
Record verdict : Type := Verdict {
  has_experience : flag;
  person_name : string;
  summary : string
}.

(** [r"NAME:\s*(.+)"] *)
Definition name_re : Re.cont :=
  Re.lit false "NAME:"
    (Re.star Chr.isspace (Re.plus_group Re.not_newline Re.group1)).

(** [r"EXPERIENCE:\s*(YES|NO)"] with [re.IGNORECASE] *)
Definition experience_re : Re.cont :=
  Re.lit true "EXPERIENCE:"
    (Re.star Chr.isspace (Re.alt_group true ["YES"; "NO"] Re.group1)).

(** [r"SUMMARY:\s*(.+)"] with [re.DOTALL] *)
Definition summary_re : Re.cont :=
  Re.lit false "SUMMARY:"
    (Re.star Chr.isspace (Re.plus_group Re.any_char Re.group1)).

(** Lines 126-148: the parsing of the oracle's answer [analysis]. *)
Definition parse_response (analysis : string) : verdict :=
  let name_match := Re.search name_re analysis in
  let experience_match := Re.search experience_re analysis in
  let summary_match := Re.search summary_re analysis in
  let person_name :=
    match name_match with
    | Some g => Str.strip g
    | None => "Unknown"
    end in
  let has_experience :=
    match experience_match with
    | Some g => PyBool (String.eqb (Str.upper g) "YES")
    | None => PyNone
    end in
  let summary :=
    match summary_match with
    | Some g => Str.strip g
    | None => "No summary available"
    end in
  Verdict has_experience person_name summary.

End Parser.

(** ** The candidate log of [save_candidate_to_file] *)

Module Log.

Definition nl : string := String Chr.newline EmptyString.

(** The clock reading [datetime.now()]. *)
Record datetime : Type := Datetime {
  year : nat;
  month : nat;
  day : nat;
  hour : nat;
  minute : nat;
  second : nat
}.

Definition digit (n : nat) : ascii :=
  match n mod 10 with
  | 0 => "0" | 1 => "1" | 2 => "2" | 3 => "3" | 4 => "4"
  | 5 => "5" | 6 => "6" | 7 => "7" | 8 => "8" | _ => "9"
  end%char.

Definition pad2 (n : nat) : string :=
  String (digit (n / 10)) (String (digit n) EmptyString).

(** The clock's years have four digits. *)
Definition pad4 (n : nat) : string :=
  String (digit (n / 1000)) (String (digit (n / 100)) (pad2 n)).

(** [strftime("%Y-%m-%d %H:%M:%S")] *)
Definition strftime (d : datetime) : string :=
  pad4 (year d) ++ "-" ++ pad2 (month d) ++ "-" ++ pad2 (day d) ++ " "
  ++ pad2 (hour d) ++ ":" ++ pad2 (minute d) ++ ":" ++ pad2 (second d).

(** ['='*60] *)
Definition separator : string := Str.repeat "=" 60.

(** The f-string of lines 218-226.  The literal opens with a line break
    right after its opening quotes and closes after an empty line. *)
Definition entry (timestamp person_name url summary : string) : string :=
  nl ++ separator ++ nl
  ++ "Date: " ++ timestamp ++ nl
  ++ "Name: " ++ person_name ++ nl
  ++ "URL: " ++ url ++ nl
  ++ "Reason: " ++ summary ++ nl
  ++ separator ++ nl
  ++ nl.

(** The log file: [None] while it does not exist, otherwise its text.
    The bytes on disk are the UTF-8 encoding of the text (the platform's
    line separator being the line feed). *)
Definition file := option string.

Definition utf8_char (c : ascii) : list nat :=
  let n := nat_of_ascii c in
  if (n <? 128)%nat then [n] else [192 + n / 64; 128 + n mod 64].

Fixpoint utf8 (s : string) : list nat :=
  match s with
  | EmptyString => []
  | String c s' => (utf8_char c ++ utf8 s')%list
  end.

Definition file_bytes (f : file) : list nat :=
  match f with
  | None => []
  | Some text => utf8 text
  end.

(** [open(filename, "a")] followed by [f.write(data)] *)
Definition append_file (f : file) (data : string) : file :=
  match f with
  | None => Some data
  | Some old => Some (old ++ data)
  end.

(** Reading in text mode translates the line ends: a carriage return
    followed by a line feed, and a lone carriage return, are each read
    as one line feed. *)
Fixpoint universal_newlines (s : string) : string :=
  match s with
  | EmptyString => EmptyString
  | String c s' =>
      if Ascii.eqb c Chr.carriage_return then
        match s' with
        | EmptyString => nl
        | String c' _ =>
            if Ascii.eqb c' Chr.newline then universal_newlines s'
            else String Chr.newline (universal_newlines s')
        end
      else String c (universal_newlines s')
  end.

(** [f.readlines()] on the translated text: each line keeps its line
    feed. *)
Fixpoint readlines (s : string) : list string :=
  match s with
  | EmptyString => []
  | String c s' =>
      if Ascii.eqb c Chr.newline then String c EmptyString :: readlines s'
      else match readlines s' with
           | l :: ls => String c l :: ls
           | [] => [String c EmptyString]
           end
  end.

(** Lines 235-240: the number printed as "Total candidates saved". *)
Definition candidate_count (f : file) : option nat :=
  match f with
  | None => None
  | Some text =>
      let lines := readlines (universal_newlines text) in
      Some (List.length
              (filter (fun line => Str.startswith line "Name:") lines))
  end.

(** [save_candidate_to_file]: the file after the call and the count it
    prints. *)
Definition save_candidate_to_file (now : datetime)
    (person_name url summary : string) (f : file) : file * option nat :=
  let timestamp := strftime now in
  let f' := append_file f (entry timestamp person_name url summary) in
  (f', candidate_count f').

(** A candidate as passed to the writer. *)
Record candidate : Type := Candidate {
  c_now : datetime;
  c_name : string;
  c_url : string;
  c_summary : string
}.

Definition save (c : candidate) (f : file) : file * option nat :=
  save_candidate_to_file (c_now c) (c_name c) (c_url c) (c_summary c) f.

(** Successive calls of the writer: the final file and the counts
    printed, in call order. *)
Fixpoint save_all (cs : list candidate) (f : file)
    : file * list (option nat) :=
  match cs with
  | [] => (f, [])
  | c :: rest =>
      let (f1, n) := save c f in
      let (f2, ns) := save_all rest f1 in
      (f2, n :: ns)
  end.

End Log.

(** ** The session loop of [main] *)

Module Session.

(** The exceptions of the collaborators: selenium's [TimeoutException],
    raised by [WebDriverWait.until], and a failure of the inference
    client. *)
Inductive exn : Type :=
  | TimeoutException
  | OllamaError.

(** What one pass through the loop meets: the outcome of the bounded
    wait for the profile element, the oracle's answer, the browser's
    location, the clock, the outcome of the wait for the skip button and
    the operator's reply at the prompt. *)
Record profile : Type := Profile {
  page : exn + string;
  oracle : exn + string;
  current_url : string;
  clock : Log.datetime;
  skip_button : exn + unit;
  reply : string
}.

(** Calls that leave the process, recorded in call order. *)
Inductive event : Type :=
  | WaitProfile
  | Generate (text : string)
  | ReadUrl
  | Save (person_name url summary : string)
  | Input
  | Sleep
  | ClickSkip
  | Quit.

Record state : Type := State {
  profile_count : nat;
  log : Log.file;
  trace : list event
}.

Definition emit (e : event) (st : state) : state :=
  State (profile_count st) (log st) (trace st ++ [e])%list.

(** [get_page_text]: [wait.until] raises when the element does not
    appear in time; nothing in the function catches it. *)
Definition get_page_text (p : profile) (st : state) : (exn + string) * state :=
  (page p, emit WaitProfile st).

(** [get_profile_url] *)
Definition get_profile_url (p : profile) (st : state) : string * state :=
  (current_url p, emit ReadUrl st).

(** [click_skip_button]: raises when the button does not become
    clickable in time, returns [True] otherwise. *)
Definition click_skip_button (p : profile) (st : state) : (exn + bool) * state :=
  match skip_button p with
  | inl e => (inl e, emit ClickSkip st)
  | inr _ => (inr true, emit ClickSkip st)
  end.

(** [analyze_text_for_interests]: the prompt is a fixed template around
    [text]; a failure of [client.generate] propagates, an answer is
    parsed. *)
Definition analyze_text_for_interests (p : profile) (text : string)
    (st : state) : (exn + Parser.verdict) * state :=
  match oracle p with
  | inl e => (inl e, emit (Generate text) st)
  | inr analysis => (inr (Parser.parse_response analysis), emit (Generate text) st)
  end.

(** [save_candidate_to_file] on the session's log. *)
Definition save_candidate (p : profile) (person_name url summary : string)
    (st : state) : state :=
  let (f, _) := Log.save_candidate_to_file (clock p) person_name url summary (log st) in
  State (profile_count st) f (trace st ++ [Save person_name url summary])%list.

(** How one pass through the body of [while True] ends. *)
Inductive flow : Type :=
  | Continue
  | Break
  | Raise (e : exn).

(** Lines 341-344, the end of the loop body. *)
Definition advance (p : profile) (st : state) : flow * state :=
  match click_skip_button p st with
  | (inl e, st1) => (Raise e, st1)
  | (inr clicked, st1) =>
      if negb clicked then (Continue, emit Input st1) else (Continue, st1)
  end.

(** Lines 280-344, one pass through the loop body.  The reply is
    lower-cased and compared with ["q"] and ["y"]; only the case of its
    ASCII letters can matter to these comparisons. *)
Definition iteration (debug : bool) (p : profile) (st : state) : flow * state :=
  let st := State (S (profile_count st)) (log st) (trace st) in
  match get_page_text p st with
  | (inl e, st1) => (Raise e, st1)
  | (inr page_text, st1) =>
      if Str.is_empty page_text then
        match click_skip_button p st1 with
        | (inl e, st2) => (Raise e, st2)
        | (inr clicked, st2) =>
            if negb clicked then (Continue, emit Input st2)
            else (Continue, st2)
        end
      else
        match analyze_text_for_interests p page_text st1 with
        | (inl e, st2) => (Raise e, st2)
        | (inr v, st2) =>
            let st3 :=
              if Parser.truthy (Parser.has_experience v) then
                let (profile_url, st') := get_profile_url p st2 in
                save_candidate p (Parser.person_name v) profile_url
                  (Parser.summary v) st'
              else st2 in
            if debug then
              let response := Str.lower (reply p) in
              let st4 := emit Input st3 in
              if String.eqb response "q" then (Break, st4)
              else if negb (String.eqb response "y") then (Break, st4)
              else advance p st4
            else advance p (emit Sleep st3)
        end
  end.

(** How a run ends: the loop was left by [break] and [main] returned,
    an exception left [main], or the script of profiles ran out with the
    loop still going. *)
Inductive outcome : Type :=
  | Returned
  | Raised (e : exn)
  | Running.

Fixpoint loop (debug : bool) (script : list profile) (st : state)
    : outcome * state :=
  match script with
  | [] => (Running, st)
  | p :: rest =>
      match iteration debug p st with
      | (Continue, st1) => loop debug rest st1
      | (Break, st1) => (Returned, st1)
      | (Raise e, st1) => (Raised e, st1)
      end
  end.

(** Lines 263-358 of [main], after the operator's first acknowledgment:
    the loop under [try], and [driver.quit()] under [finally]. *)
Definition main (debug : bool) (script : list profile) (f : Log.file)
    : outcome * state :=
  match loop debug script (State 0 f [Input]) with
  | (Running, st) => (Running, st)
  | (o, st) => (o, emit Quit st)
  end.

End Session.

(** ** The formatter of [format_text.py] *)

Module Formatter.

Definition headers : list string := ["Date:"; "Name:"; "URL:"; "Reason:"].

(** [any(line.startswith(header) for header in [...])] *)
Definition is_header (line : string) : bool :=
  existsb (fun header => Str.startswith line header) headers.

(** The word loop of lines 40-44 and 67-71: [current_line] is the line
    being filled, [out] the lines already closed. *)
Fixpoint wrap_loop (words_per_line : Z) (words : list string)
    (current_line : list string) (out : list string)
    : list string * list string :=
  match words with
  | [] => (current_line, out)
  | word :: rest =>
      let current_line := (current_line ++ [word])%list in
      if (Z.of_nat (List.length current_line) >=? words_per_line)%Z
      then wrap_loop words_per_line rest []
             (out ++ [Str.join " " current_line])%list
      else wrap_loop words_per_line rest current_line out
  end.

(** The loop followed by the flush of the words that remain. *)
Definition wrap (words_per_line : Z) (words : list string) : list string :=
  let (current_line, out) := wrap_loop words_per_line words [] [] in
  match current_line with
  | [] => out
  | _ :: _ => (out ++ [Str.join " " current_line])%list
  end.

(** Lines 22-76: the lines one input line contributes. *)
Definition format_line (words_per_line : Z) (line : string) : list string :=
  if Str.is_empty (Str.strip line) || Str.startswith (Str.strip line) "===="
  then [line]
  else if is_header line then
    match Str.split_once ":" line with
    | Some (header_part, content_part) =>
        let content_part := Str.strip content_part in
        if negb (Str.is_empty content_part) then
          let words := Str.split_ws content_part in
          match wrap words_per_line words with
          | first :: others => (header_part ++ ": " ++ first) :: others
          | [] => [line]
          end
        else [line]
    | None => [line]
    end
  else
    let words := Str.split_ws line in
    if (Z.of_nat (List.length words) >? words_per_line)%Z
    then wrap words_per_line words
    else [line].

(** [format_text_with_line_breaks] *)
Definition format_text_with_line_breaks (text : string) (words_per_line : Z)
    : string :=
  let lines := Str.split_chr Chr.newline text in
  let formatted_lines :=
    fold_left (fun acc line => (acc ++ format_line words_per_line line)%list)
      lines [] in
  Str.join Log.nl formatted_lines.

End Formatter.

(** ** Statements in the words of the specification

    Definitions of this module follow the specification's text, not the
    programs; the theorems further down compare them with the
    embedding. *)

Module Claims.

(** The record layout of the specification: separator, Date, Name, URL
    and Reason lines, separator, one blank line. *)
Definition spec_record (timestamp person_name url summary : string) : string :=
  Log.separator ++ Log.nl
  ++ "Date: " ++ timestamp ++ Log.nl
  ++ "Name: " ++ person_name ++ Log.nl
  ++ "URL: " ++ url ++ Log.nl
  ++ "Reason: " ++ summary ++ Log.nl
  ++ Log.separator ++ Log.nl
  ++ Log.nl.

(** "The log writer appends exactly [spec_record], with no line before
    or after it." *)
Definition record_format_claim (now : Log.datetime)
    (person_name url summary : string) (f : Log.file) : Prop :=
  fst (Log.save_candidate_to_file now person_name url summary f)
  = Log.append_file f (spec_record (Log.strftime now) person_name url summary).

(** "Writing N records with distinct names from an empty log reports
    the counts 1, 2, ..., N." *)
Definition count_is_number_of_records_claim (cs : list Log.candidate) : Prop :=
  NoDup (map Log.c_name cs) ->
  snd (Log.save_all cs None) = map Some (seq 1 (List.length cs)).

(** The text after the prefix [p] of [s], compared under [ci]. *)
Fixpoint after_prefix (ci : bool) (p s : string) : option string :=
  match p with
  | EmptyString => Some s
  | String a p' =>
      match s with
      | EmptyString => None
      | String c s' =>
          if Chr.matches ci a c then after_prefix ci p' s' else None
      end
  end.

(** "Here stands the EXPERIENCE label, as written, followed by the token
    YES in any case." *)
Definition label_then_yes_here (u : string) : bool :=
  match after_prefix false "EXPERIENCE:" u with
  | Some r =>
      match after_prefix true "YES" (Str.lstrip r) with
      | Some _ => true
      | None => false
      end
  | None => false
  end.

(** "The text contains the EXPERIENCE label followed by the token YES." *)
Fixpoint contains_label_then_yes (t : string) : bool :=
  label_then_yes_here t
  || match t with
     | EmptyString => false
     | String _ t' => contains_label_then_yes t'
     end.

(** "The flag is the boolean true exactly when the text contains the
    EXPERIENCE label followed by the token YES." *)
Definition experience_flag_claim (t : string) : Prop :=
  Parser.has_experience (Parser.parse_response t) = Parser.PyBool true
  <-> contains_label_then_yes t = true.

(** [p in s] *)
Fixpoint contains (s p : string) : bool :=
  Str.startswith s p
  || match s with
     | EmptyString => false
     | String _ s' => contains s' p
     end.

(** "A text without the label EXPERIENCE in upper case does not bind
    the field": its flag is not true. *)
Definition label_case_sensitive_claim (t : string) : Prop :=
  contains t "EXPERIENCE:" = false ->
  Parser.truthy (Parser.has_experience (Parser.parse_response t)) = false.

Definition answer (b : bool) : string := if b then "YES" else "NO".

(** A synthetic response, fields in protocol order. *)
Definition forward_response (n : string) (b : bool) (s : string) : string :=
  "NAME: " ++ n ++ Log.nl
  ++ "EXPERIENCE: " ++ answer b ++ Log.nl
  ++ "SUMMARY: " ++ s.

(** The same fields in reverse order. *)
Definition reverse_response (n : string) (b : bool) (s : string) : string :=
  "SUMMARY: " ++ s ++ Log.nl
  ++ "EXPERIENCE: " ++ answer b ++ Log.nl
  ++ "NAME: " ++ n.

(** "The reverse order yields the same verdict as the forward order." *)
Definition order_independent_claim (n : string) (b : bool) (s : string) : Prop :=
  Parser.parse_response (reverse_response n b s)
  = Parser.parse_response (forward_response n b s).

(** The formatter with a fixed words-per-line setting. *)
Definition format (n : Z) (t : string) : string :=
  Formatter.format_text_with_line_breaks t n.

Definition lines_of (t : string) : list string := Str.split_chr Chr.newline t.

Definition word_count (line : string) : nat := List.length (Str.split_ws line).

(** "After two runs no non-header line exceeds the word threshold, and a
    third run is identical to the second." *)
Definition formatter_idempotence_claim (n : Z) (t : string) : Prop :=
  (forall line,
      In line (lines_of (format n (format n t))) ->
      Formatter.is_header line = false ->
      (Z.of_nat (word_count line) <= n)%Z)
  /\ format n (format n (format n t)) = format n (format n t).

(** The default verdict of the specification. *)
Definition default_verdict : Parser.verdict :=
  Parser.Verdict (Parser.PyBool false) "Unknown" "No summary available".

End Claims.

(** ** Auxiliary notions used by the statements *)

Module Aux.

Definition is_save (e : Session.event) : bool :=
  match e with
  | Session.Save _ _ _ => true
  | _ => false
  end.

(** A line break as the text-mode reader sees one. *)
Definition is_break (c : ascii) : bool :=
  Ascii.eqb c Chr.newline || Ascii.eqb c Chr.carriage_return.

(** The number of line breaks of [s] that are directly followed by
    ["Name:"]. *)
Fixpoint breaks_before_name (s : string) : nat :=
  match s with
  | EmptyString => 0
  | String c s' =>
      (if is_break c && Str.startswith s' "Name:" then 1 else 0)
      + breaks_before_name s'
  end.

(** The number of places of [s] where a line opens with ["Name:"]: the
    start of the text and every line break. *)
Definition name_lines (s : string) : nat :=
  (if Str.startswith s "Name:" then 1 else 0) + breaks_before_name s.

(** The lines a candidate's own fields add to the count. *)
Definition embedded (c : Log.candidate) : nat :=
  breaks_before_name (Log.c_name c) + breaks_before_name (Log.c_url c)
  + breaks_before_name (Log.c_summary c).

Definition total_embedded (cs : list Log.candidate) : nat :=
  list_sum (map embedded cs).

Definition count_lines (ls : list string) : nat :=
  List.length (filter (fun line => Str.startswith line "Name:") ls).

(** The same count on a text whose line ends were translated already:
    only line feeds open a line. *)
Fixpoint feeds_before_name (s : string) : nat :=
  match s with
  | EmptyString => 0
  | String c s' =>
      (if Ascii.eqb c Chr.newline && Str.startswith s' "Name:" then 1 else 0)
      + feeds_before_name s'
  end.

(** An empty log: no file yet, or a file without content. *)
Definition empty_log (on_disk : bool) : Log.file :=
  if on_disk then Some EmptyString else None.

Definition file_text (f : Log.file) : string :=
  match f with
  | None => ""
  | Some t => t
  end.

(** Character-wise comparison of a text word [w] with a pattern word
    [p] of the same length. *)
Fixpoint word_matches (ci : bool) (p w : string) : bool :=
  match p, w with
  | EmptyString, EmptyString => true
  | String a p', String c w' => Chr.matches ci a c && word_matches ci p' w'
  | _, _ => false
  end.

(** Equality of two texts up to the case of their ASCII letters. *)
Definition ci_equal (a b : string) : bool :=
  String.eqb (Str.lower a) (Str.lower b).

Fixpoint all_chars (cls : ascii -> bool) (s : string) : bool :=
  match s with
  | EmptyString => true
  | String c s' => cls c && all_chars cls s'
  end.

(** The text [u] opens with the EXPERIENCE tag, in any case, carrying
    the token [tok]: label, optional whitespace, YES or NO. *)
Definition tag_at (u tok : string) : Prop :=
  exists lab ws rest,
    u = lab ++ ws ++ tok ++ rest
    /\ ci_equal lab "EXPERIENCE:" = true
    /\ all_chars Chr.isspace ws = true
    /\ (ci_equal tok "YES" = true \/ ci_equal tok "NO" = true).

(** [tok] is the token of the leftmost EXPERIENCE tag of [t]. *)
Definition leftmost_tag (t tok : string) : Prop :=
  exists pre u,
    t = pre ++ u
    /\ tag_at u tok
    /\ forall p q, t = p ++ q -> String.length p < String.length pre ->
                   forall tk, ~ tag_at q tk.

(** The longest prefix whose characters are all in [cls]. *)
Fixpoint take_while (cls : ascii -> bool) (s : string) : string :=
  match s with
  | EmptyString => EmptyString
  | String c s' => if cls c then String c (take_while cls s') else EmptyString
  end.

(** A field value of a synthetic response: it opens with a visible
    character and holds neither a colon nor a line feed. *)
Definition plain (v : string) : bool :=
  negb (Str.contains_chr ":" v)
  && negb (Str.contains_chr Chr.newline v)
  && match v with
     | EmptyString => false
     | String c _ => negb (Chr.isspace c)
     end.

(** A pattern word that closes with a colon and cannot match a line
    feed: the shape of the three labels. *)
Fixpoint label_like (ci : bool) (p : string) : bool :=
  match p with
  | EmptyString => false
  | String a EmptyString => Ascii.eqb a ":"
  | String a p' => negb (Chr.matches ci a Chr.newline) && label_like ci p'
  end.

(** The text [rest] cannot give a character to a repetition of [cls]. *)
Definition blocked (cls : ascii -> bool) (rest : string) : bool :=
  match rest with
  | EmptyString => true
  | String c _ => negb (cls c)
  end.

Definition visible (c : ascii) : bool := negb (Chr.isspace c).

(** A word as [str.split()] returns them: not empty, no whitespace. *)
Definition word (w : string) : bool :=
  negb (Str.is_empty w) && all_chars visible w.

(** A list of words that the word loop closes as one line: at most
    [n] words, or a single word. *)
Definition small (n : Z) (chunk : list string) : Prop :=
  (Z.of_nat (List.length chunk) <= n)%Z \/ List.length chunk <= 1.

(** A line made by the word loop. *)
Definition chunk_line (n : Z) (line : string) : Prop :=
  exists chunk,
    line = Str.join " " chunk /\ chunk <> []
    /\ Forall (fun w => word w = true) chunk /\ small n chunk.

(** A line the formatter reproduces as it is. *)
Definition stable (n : Z) (line : string) : Prop :=
  Formatter.format_line n line = [line].

(** A line all of whose output lines are stable. *)
Definition settled (n : Z) (line : string) : Prop :=
  Forall (stable n) (Formatter.format_line n line).

Definition one_line (s : string) : Prop :=
  Str.contains_chr Chr.newline s = false.

Definition header_parts : list string := ["Date"; "Name"; "URL"; "Reason"].

Fixpoint map_chr (f : ascii -> ascii) (s : string) : string :=
  match s with
  | EmptyString => EmptyString
  | String c s' => String (f c) (map_chr f s')
  end.

(** The verdict a pass of the loop obtains: the profile element
    appeared with text and the oracle answered; no verdict when the
    wait timed out, the text was empty or the inference call failed. *)
Definition verdict_of (p : Session.profile) : option Parser.verdict :=
  match Session.page p with
  | inl _ => None
  | inr text =>
      if Str.is_empty text then None
      else match Session.oracle p with
           | inl _ => None
           | inr analysis => Some (Parser.parse_response analysis)
           end
  end.

(** Lines 324-344 as seen from outside: the calls made there, in order,
    and the way the pass ends.  In confirmed mode the operator is asked
    and only the reply ["y"] goes on to the skip button, any other reply
    leaves the loop; in autonomous mode the pass pauses and goes on to
    the skip button.  The wait for the skip button raises when it times
    out. *)
Definition advancing (debug : bool) (p : Session.profile)
    : Session.flow * list Session.event :=
  let click :=
    match Session.skip_button p with
    | inl e => Session.Raise e
    | inr _ => Session.Continue
    end in
  if debug then
    if String.eqb (Str.lower (Session.reply p)) "y"
    then (click, [Session.Input; Session.ClickSkip])
    else (Session.Break, [Session.Input])
  else (click, [Session.Sleep; Session.ClickSkip]).

End Aux.

(** ** The start of [main]: [check_ollama_connection] *)

Module Startup.

(** A Python mapping with string keys, given by its items; a key is
    looked up from the left. *)
Fixpoint lookup {V : Type} (key : string) (items : list (string * V)) : option V :=
  match items with
  | [] => None
  | (k, v) :: rest => if String.eqb k key then Some v else lookup key rest
  end.

(** An element of [response.models] when the response is an object:
    its attributes [model] and [name], [None] for an attribute it does
    not have, and its [str()]. *)
Record model_object : Type := ModelObject {
  attr_model : option string;
  attr_name : option string;
  object_str : string
}.

(** An element of [response["models"]] when the response is a mapping:
    its items and its [str()]. *)
Record model_mapping : Type := ModelMapping {
  model_items : list (string * string);
  mapping_str : string
}.

(** What [client.list()] returns: an object with a [models] attribute,
    or a mapping. *)
Inductive list_response : Type :=
  | ObjectResponse (models : list model_object)
  | MappingResponse (items : list (string * list model_mapping)).

(** Lines 28-34: [model] before [name] before [str(model)]. *)
Definition object_model_name (m : model_object) : string :=
  match attr_model m with
  | Some s => s
  | None =>
      match attr_name m with
      | Some s => s
      | None => object_str m
      end
  end.

(** Lines 37-45: ["name"] before ["model"] before [str(model)]. *)
Definition mapping_model_name (m : model_mapping) : string :=
  match lookup "name" (model_items m) with
  | Some s => s
  | None =>
      match lookup "model" (model_items m) with
      | Some s => s
      | None => mapping_str m
      end
  end.

(** Lines 25-45: the list [available_models]. *)
Definition available_models (response : list_response) : list string :=
  match response with
  | ObjectResponse models => map object_model_name models
  | MappingResponse items =>
      match lookup "models" items with
      | Some models => map mapping_model_name models
      | None => []
      end
  end.

(** [check_ollama_connection]: a failure of [client.list()] propagates;
    otherwise the answer is whether [model_name] is listed. *)
Definition check_ollama_connection (listing : Session.exn + list_response)
    (model_name : string) : Session.exn + bool :=
  match listing with
  | inl e => inl e
  | inr response =>
      inr (existsb (String.eqb model_name) (available_models response))
  end.

(** How [main] ends: with a return value, with an exception, or not
    within the script of profiles. *)
Inductive exit : Type :=
  | Return (value : bool)
  | Uncaught (e : Session.exn)
  | Unfinished.

(** [main] as a whole: the check of the model, then the browser
    session of [Session.main]. *)
Definition main (listing : Session.exn + list_response) (model : string)
    (debug : bool) (script : list Session.profile) (f : Log.file)
    : exit * Session.state :=
  match check_ollama_connection listing model with
  | inl e => (Uncaught e, Session.State 0 f [])
  | inr false => (Return false, Session.State 0 f [])
  | inr true =>
      match Session.main debug script f with
      | (Session.Returned, st) => (Return true, st)
      | (Session.Raised e, st) => (Uncaught e, st)
      | (Session.Running, st) => (Unfinished, st)
      end
  end.

End Startup.

(** ** The [main] of [format_text.py] *)

Module FormatMain.

(** The exceptions [open] can raise. *)
Inductive io_error : Type :=
  | FileNotFoundError
  | OtherError (message : string).

(** What [main] prints. *)
Inductive message : Type :=
  | Formatted (words lines : nat)
  | NotFound
  | Failed (e : io_error).

(** The handlers of lines 100-103: [FileNotFoundError] first, whatever
    [open] raised it. *)
Definition report (e : io_error) : message :=
  match e with
  | FileNotFoundError => NotFound
  | OtherError _ => Failed e
  end.

(** [main]: [input] is the outcome of opening and reading
    [recommended_candidates.txt], [cannot_write] the exception that
    opening [formatted_candidates.txt] for writing raises, if any, and
    [output] the content of that file before the call.  The result is
    the content of the output file after the call and what was
    printed. *)
Definition main (input : io_error + string) (cannot_write : option io_error)
    (output : option string) : option string * message :=
  match input with
  | inl e => (output, report e)
  | inr content =>
      let formatted_content :=
        Formatter.format_text_with_line_breaks content 15 in
      match cannot_write with
      | Some e => (output, report e)
      | None =>
          (Some formatted_content,
           Formatted (List.length (Str.split_ws content))
             (List.length (Str.split_chr Chr.newline formatted_content)))
      end
  end.

End FormatMain.

(** ** Further auxiliary notions *)

Module Aux2.

Definition is_input (e : Session.event) : bool :=
  match e with
  | Session.Input => true
  | _ => false
  end.

Definition is_quit (e : Session.event) : bool :=
  match e with
  | Session.Quit => true
  | _ => false
  end.

Definition is_wait (e : Session.event) : bool :=
  match e with
  | Session.WaitProfile => true
  | _ => false
  end.

Definition count (p : Session.event -> bool) (t : list Session.event) : nat :=
  List.length (filter p t).

(** The log [f'] extends the log [f]. *)
Definition grows (f f' : Log.file) : Prop :=
  (exists added, Aux.file_text f' = Aux.file_text f ++ added)
  /\ (f <> None -> f' <> None).

(** The words of a list of lines, in order. *)
Definition words_of (lines : list string) : list string :=
  flat_map Str.split_ws lines.

(** The last character of a text. *)
Fixpoint last_char (s : string) : option ascii :=
  match s with
  | EmptyString => None
  | String c EmptyString => Some c
  | String _ s' => last_char s'
  end.

(** The words a line shows to a reader: the label of a header line
    counts as a word of its own. *)
Definition line_words (l : string) : list string :=
  match Str.split_once ":" l with
  | Some (h, rest) =>
      if Formatter.is_header l then (h ++ ":") :: Str.split_ws rest
      else Str.split_ws l
  | None => Str.split_ws l
  end.

End Aux2.

(** * Properties *)

(** Splits the conjunctions of the goal, and nothing else. *)
Ltac splits := repeat match goal with |- _ /\ _ => split end.

(** ** Generic facts on strings *)

Lemma append_empty_r (s : string) : s ++ "" = s.
Proof. induction s; simpl; congruence. Qed.

Lemma append_assoc (a b c : string) : (a ++ b) ++ c = a ++ b ++ c.
Proof. induction a; simpl; congruence. Qed.

Lemma length_append (a b : string) :
  String.length (a ++ b) = String.length a + String.length b.
Proof. induction a; simpl; congruence. Qed.

Lemma append_neq_self (a b : string) : b <> "" -> a ++ b <> a.
Proof.
  intros Hb H. apply (f_equal String.length) in H.
  rewrite length_append in H. destruct b; [congruence | simpl in H; lia].
Qed.

Lemma startswith_empty (s : string) : Str.startswith s "" = true.
Proof. destruct s; reflexivity. Qed.

(** ** The session loop *)

Section SessionFacts.
Import Session.

Lemma emit_log e st : log (emit e st) = log st.
Proof. reflexivity. Qed.

Lemma entry_nonempty ts n u s : Log.entry ts n u s <> "".
Proof. unfold Log.entry, Log.nl. simpl. discriminate. Qed.

Lemma append_file_changes f e : e <> "" -> Log.append_file f e <> f.
Proof.
  intros He. destruct f as [old|]; simpl; [|discriminate].
  intros H. injection H as H. exact (append_neq_self _ _ He H).
Qed.

(** C1 (code at the failing input): when the bounded wait for the
    profile element times out, [get_page_text] raises; the loop body has
    no handler, so the exception leaves [main] through the [finally]
    clause.  The skip button is never tried, and the run is over. *)
Theorem extraction_timeout_ends_run :
  forall debug o u c sb r rest f,
    main debug (Profile (inl TimeoutException) o u c sb r :: rest) f
    = (Raised TimeoutException, State 1 f [Input; WaitProfile; Quit]).
Proof. intros. reflexivity. Qed.

(** A pass that obtains a verdict: what it returns. *)
Lemma iteration_verdict debug p st text analysis :
  page p = inr text ->
  Str.is_empty text = false ->
  oracle p = inr analysis ->
  let v := Parser.parse_response analysis in
  let hit := Parser.truthy (Parser.has_experience v) in
  iteration debug p st
  = (fst (Aux.advancing debug p),
     State (S (profile_count st))
       (if hit
        then Log.append_file (log st)
               (Log.entry (Log.strftime (clock p)) (Parser.person_name v)
                  (current_url p) (Parser.summary v))
        else log st)
       (trace st
        ++ [WaitProfile; Generate text]
        ++ (if hit
            then [ReadUrl;
                  Save (Parser.person_name v) (current_url p) (Parser.summary v)]
            else [])
        ++ snd (Aux.advancing debug p))).
Proof.
  intros Hpage Htext Horacle v hit. subst hit.
  unfold iteration, get_page_text, analyze_text_for_interests.
  rewrite Hpage, Htext, Horacle. fold v. clearbody v.
  unfold advance, click_skip_button, get_profile_url, save_candidate,
    Log.save_candidate_to_file, Aux.advancing, emit.
  cbn [profile_count log trace fst snd].
  destruct (Parser.truthy (Parser.has_experience v));
    cbn [profile_count log trace fst snd];
    destruct debug.
  all: try (destruct (String.eqb (Str.lower (reply p)) "q") eqn:Hq;
            [apply String.eqb_eq in Hq; rewrite Hq;
             cbn [String.eqb Ascii.eqb Bool.eqb negb]
            |destruct (String.eqb (Str.lower (reply p)) "y")]).
  all: cbn [negb fst snd].
  all: try destruct (skip_button p).
  all: cbn [negb fst snd profile_count log trace].
  all: rewrite <- ?app_assoc; cbn [app].
  all: reflexivity.
Qed.

(** A pass that obtains no verdict makes no call of the writer. *)
Lemma iteration_no_verdict debug p st :
  Aux.verdict_of p = None ->
  exists evs,
    trace (snd (iteration debug p st)) = (trace st ++ evs)%list
    /\ existsb Aux.is_save evs = false
    /\ log (snd (iteration debug p st)) = log st.
Proof.
  unfold Aux.verdict_of, iteration, get_page_text,
    analyze_text_for_interests, click_skip_button, emit.
  cbn [profile_count log trace fst snd].
  destruct (page p) as [e|text]; [intros _|].
  { exists [WaitProfile]. splits; reflexivity. }
  destruct (Str.is_empty text).
  { intros _. destruct (skip_button p);
      cbn [negb fst snd profile_count log trace];
      rewrite <- ?app_assoc; (eexists; splits; [reflexivity| |reflexivity]);
      reflexivity. }
  destruct (oracle p) as [e|analysis]; [intros _|discriminate].
  cbn [fst snd profile_count log trace]. rewrite <- app_assoc.
  eexists; splits; [reflexivity| |reflexivity]; reflexivity.
Qed.

Lemma verdict_of_some p v :
  Aux.verdict_of p = Some v ->
  exists text analysis,
    page p = inr text /\ Str.is_empty text = false
    /\ oracle p = inr analysis /\ v = Parser.parse_response analysis.
Proof.
  unfold Aux.verdict_of.
  destruct (page p) as [e|text]; [discriminate|].
  destruct (Str.is_empty text) eqn:Htext; [discriminate|].
  destruct (oracle p) as [e|analysis]; [discriminate|].
  intros H. injection H as <-. exists text, analysis. splits; first [reflexivity | assumption].
Qed.

(** C6: in every state of the loop and in both modes, a pass calls the
    log writer, and changes the log, exactly when it obtained a verdict
    whose flag is the boolean true.  Such a pass reads the URL, appends
    that candidate's record (the empty line that opens it included) to
    the log and then goes through the end of the loop body.  A pass
    whose verdict carries any other flag goes from the oracle's answer
    straight to the end of the loop body (lines 324-344: the pause and
    the skip button, in confirmed mode the operator's decision first),
    makes no call of the writer and leaves the log as it was. *)
Theorem record_appended_iff_experience :
  forall debug p st,
    let fl := fst (iteration debug p st) in
    let st' := snd (iteration debug p st) in
    exists evs,
      trace st' = (trace st ++ evs)%list
      /\ (existsb Aux.is_save evs = true
          <-> exists v, Aux.verdict_of p = Some v
                        /\ Parser.has_experience v = Parser.PyBool true)
      /\ (log st' <> log st
          <-> exists v, Aux.verdict_of p = Some v
                        /\ Parser.has_experience v = Parser.PyBool true)
      /\ (forall v,
            Aux.verdict_of p = Some v ->
            Parser.has_experience v = Parser.PyBool true ->
            exists text,
              page p = inr text
              /\ log st'
                 = Log.append_file (log st)
                     (Log.nl ++ Claims.spec_record (Log.strftime (clock p))
                                  (Parser.person_name v) (current_url p)
                                  (Parser.summary v))
              /\ evs = ([WaitProfile; Generate text; ReadUrl;
                         Save (Parser.person_name v) (current_url p)
                           (Parser.summary v)]
                        ++ snd (Aux.advancing debug p))%list
              /\ fl = fst (Aux.advancing debug p))
      /\ (forall v,
            Aux.verdict_of p = Some v ->
            Parser.has_experience v <> Parser.PyBool true ->
            exists text,
              page p = inr text
              /\ log st' = log st
              /\ evs = ([WaitProfile; Generate text]
                        ++ snd (Aux.advancing debug p))%list
              /\ fl = fst (Aux.advancing debug p)).
Proof.
  intros debug p st fl st'. subst fl st'.
  assert (Hadv : existsb Aux.is_save (snd (Aux.advancing debug p)) = false).
  { unfold Aux.advancing.
    destruct debug; [destruct (String.eqb _ _)|]; reflexivity. }
  destruct (Aux.verdict_of p) as [v|] eqn:Hv.
  - destruct (verdict_of_some _ _ Hv) as [text [analysis [Hp [Ht [Ho ->]]]]].
    rewrite (iteration_verdict debug p st text analysis Hp Ht Ho).
    cbn [fst snd trace log].
    set (v := Parser.parse_response analysis). clearbody v.
    destruct (Parser.has_experience v) as [|[|]] eqn:Hflag;
      cbn [Parser.truthy];
      (eexists; split; [reflexivity|]); cbn [app existsb Aux.is_save orb];
      rewrite ?Hadv; splits;
      try (split; [first [discriminate | intros H; exfalso; apply H; reflexivity]
                  | intros [w [H Hw]]; injection H as <-; congruence]);
      try (split; [intros _; exists v; split; [reflexivity | exact Hflag]
                  | intros _; first [reflexivity
                                    | apply append_file_changes, entry_nonempty]]);
      intros w H Hw; injection H as <-;
      first [congruence
            | exfalso; apply Hw; exact Hflag
            | exists text; splits; first [assumption | reflexivity]].
  - destruct (iteration_no_verdict debug p st Hv) as [evs [Ht [Hs Hl]]].
    exists evs. rewrite Hs, Hl. splits; try exact Ht;
      try (split; [first [discriminate | intros H; exfalso; apply H; reflexivity]
                  | intros [w [H _]]; discriminate H]);
      intros w H; discriminate H.
Qed.

End SessionFacts.

(** ** The candidate log *)

Section LogFacts.
Import Log Aux.

Lemma readlines_nil s : readlines s = [] -> s = "".
Proof.
  destruct s as [|c s]; [reflexivity|]. simpl.
  destruct (Ascii.eqb c Chr.newline); [discriminate|].
  destruct (readlines s); discriminate.
Qed.

(** A pattern without line feed is a prefix of a text exactly when it is
    a prefix of the text's first line. *)
Lemma startswith_first_line :
  forall p t l ls,
    Str.contains_chr Chr.newline p = false ->
    readlines t = l :: ls ->
    Str.startswith l p = Str.startswith t p.
Proof.
  induction p as [|a p IH]; intros t l ls Hp Ht;
    [rewrite !startswith_empty; reflexivity|].
  simpl in Hp. apply orb_false_elim in Hp as [Ha Hp].
  destruct t as [|c t]; [discriminate|]. simpl in Ht.
  destruct (Ascii.eqb c Chr.newline) eqn:Hc.
  - injection Ht as <- _. cbn [Str.startswith].
    apply Ascii.eqb_eq in Hc. subst c.
    rewrite Ascii.eqb_sym, Ha. reflexivity.
  - destruct (readlines t) as [|l' ls'] eqn:Hr.
    + apply readlines_nil in Hr. subst t. injection Ht as <- _. reflexivity.
    + injection Ht as <- _. cbn [Str.startswith]. f_equal. eapply IH; eauto.
Qed.

Lemma count_readlines t :
  count_lines (readlines t)
  = (if Str.startswith t "Name:" then 1 else 0) + feeds_before_name t.
Proof.
  induction t as [|c t IH]; [reflexivity|].
  cbn [readlines feeds_before_name].
  destruct (Ascii.eqb c Chr.newline) eqn:Hc.
  - apply Ascii.eqb_eq in Hc. subst c.
    unfold count_lines in *. cbn [filter].
    change (Str.startswith (String Chr.newline "") "Name:") with false.
    change (Str.startswith (String Chr.newline t) "Name:") with false.
    cbn iota. rewrite IH. reflexivity.
  - simpl andb. destruct (readlines t) as [|l ls] eqn:Hr.
    + apply readlines_nil in Hr. subst t. destruct c as [[] [] [] [] [] [] [] []]; reflexivity.
    + unfold count_lines in *. cbn [filter] in *.
      assert (Hl : Str.startswith l "ame:" = Str.startswith t "ame:")
        by (eapply startswith_first_line; eauto).
      assert (Hl' : Str.startswith l "Name:" = Str.startswith t "Name:")
        by (eapply startswith_first_line; eauto).
      rewrite Hl' in IH.
      change (Str.startswith (String c l) "Name:")
        with (Ascii.eqb c "N" && Str.startswith l "ame:").
      change (Str.startswith (String c t) "Name:")
        with (Ascii.eqb c "N" && Str.startswith t "ame:").
      rewrite Hl.
      destruct (Ascii.eqb c "N" && Str.startswith t "ame:");
        destruct (Str.startswith t "Name:"); simpl in *; lia.
Qed.

Lemma universal_newlines_head_cr s :
  exists r, universal_newlines (String Chr.carriage_return s) = String Chr.newline r.
Proof.
  simpl. destruct s as [|c s]; [eexists; reflexivity|].
  destruct (Ascii.eqb c Chr.newline) eqn:Hc; [|eexists; reflexivity].
  apply Ascii.eqb_eq in Hc. subst c. simpl. eexists; reflexivity.
Qed.

(** The translation of the line ends does not touch a prefix that holds
    neither a line feed nor a carriage return. *)
Lemma startswith_universal_newlines :
  forall p s,
    Str.contains_chr Chr.newline p = false ->
    Str.contains_chr Chr.carriage_return p = false ->
    Str.startswith (universal_newlines s) p = Str.startswith s p.
Proof.
  induction p as [|a p IH]; intros s Hn Hr;
    [rewrite !startswith_empty; reflexivity|].
  simpl in Hn, Hr.
  apply orb_false_elim in Hn as [Han Hn]. apply orb_false_elim in Hr as [Har Hr].
  destruct s as [|c s]; [reflexivity|].
  destruct (Ascii.eqb c Chr.carriage_return) eqn:Hc.
  - apply Ascii.eqb_eq in Hc. subst c.
    destruct (universal_newlines_head_cr s) as [r ->].
    cbn [Str.startswith].
    rewrite (Ascii.eqb_sym _ a), Han, (Ascii.eqb_sym _ a), Har. reflexivity.
  - cbn [universal_newlines]. rewrite Hc. cbn [Str.startswith].
    f_equal. apply IH; assumption.
Qed.

Lemma feeds_universal_newlines s :
  feeds_before_name (universal_newlines s) = breaks_before_name s.
Proof.
  induction s as [|c s IH]; [reflexivity|].
  cbn [universal_newlines breaks_before_name]. unfold is_break.
  destruct (Ascii.eqb c Chr.carriage_return) eqn:Hc.
  - apply Ascii.eqb_eq in Hc. subst c. simpl orb.
    destruct s as [|c' s']; [reflexivity|].
    destruct (Ascii.eqb c' Chr.newline) eqn:Hc'.
    + rewrite IH. apply Ascii.eqb_eq in Hc'. subst c'. reflexivity.
    + cbn [feeds_before_name]. rewrite IH.
      rewrite startswith_universal_newlines by reflexivity. reflexivity.
  - cbn [feeds_before_name]. rewrite IH, orb_false_r.
    rewrite startswith_universal_newlines by reflexivity. reflexivity.
Qed.

(** The printed count is the number of places where a line opens with
    ["Name:"]. *)
Lemma candidate_count_spec text :
  candidate_count (Some text) = Some (name_lines text).
Proof.
  unfold candidate_count, name_lines. f_equal.
  change (count_lines (readlines (universal_newlines text)) =
          (if Str.startswith text "Name:" then 1 else 0) + breaks_before_name text).
  rewrite count_readlines, feeds_universal_newlines.
  rewrite startswith_universal_newlines by reflexivity. reflexivity.
Qed.

Lemma startswith_app_other :
  forall p x c b,
    Str.contains_chr c p = false ->
    Str.startswith (x ++ String c b) p = Str.startswith x p.
Proof.
  induction p as [|a p IH]; intros x c b Hp;
    [rewrite !startswith_empty; reflexivity|].
  simpl in Hp. apply orb_false_elim in Hp as [Ha Hp].
  destruct x as [|d x]; cbn [append Str.startswith].
  - rewrite Ascii.eqb_sym, Ha. reflexivity.
  - f_equal. apply IH. exact Hp.
Qed.

Lemma breaks_app_nl a b :
  breaks_before_name (a ++ nl ++ b) = breaks_before_name a + name_lines b.
Proof.
  induction a as [|d a IH]; [reflexivity|].
  cbn [append breaks_before_name]. rewrite IH.
  unfold nl at 1. cbn [append].
  rewrite startswith_app_other by reflexivity. lia.
Qed.

Lemma name_lines_app_nl a b :
  name_lines (a ++ nl ++ b) = name_lines a + name_lines b.
Proof.
  unfold name_lines at 1 2. rewrite breaks_app_nl.
  unfold nl. cbn [append]. rewrite startswith_app_other by reflexivity. lia.
Qed.

Lemma name_lines_nl b : name_lines (nl ++ b) = name_lines b.
Proof. exact (name_lines_app_nl "" b). Qed.

Lemma name_lines_field (label f rest : string) :
  name_lines (label ++ f ++ nl ++ rest) = name_lines (label ++ f) + name_lines rest.
Proof. rewrite <- append_assoc. apply name_lines_app_nl. Qed.

Lemma digit_not_break n : is_break (digit n) = false.
Proof.
  unfold digit.
  destruct (n mod 10) as [|[|[|[|[|[|[|[|[|k]]]]]]]]]; reflexivity.
Qed.

Lemma strftime_no_breaks d : breaks_before_name (strftime d) = 0.
Proof.
  unfold strftime, pad4, pad2. cbn [append breaks_before_name].
  rewrite !digit_not_break. reflexivity.
Qed.

Lemma digit_not_N n : Ascii.eqb (digit n) "N" = false.
Proof.
  unfold digit.
  destruct (n mod 10) as [|[|[|[|[|[|[|[|[|k]]]]]]]]]; reflexivity.
Qed.

Lemma name_lines_entry ts n u s :
  name_lines (entry ts n u s)
  = 1 + breaks_before_name ts + breaks_before_name n
    + breaks_before_name u + breaks_before_name s.
Proof.
  unfold entry.
  rewrite name_lines_nl.
  rewrite (name_lines_app_nl separator).
  rewrite !name_lines_field.
  rewrite (name_lines_app_nl separator).
  assert (Hsep : name_lines separator = 0) by reflexivity.
  assert (Hempty : name_lines nl = 0) by reflexivity.
  rewrite Hsep, Hempty. unfold name_lines. simpl. lia.
Qed.

Lemma name_lines_append_entry old ts n u s :
  name_lines (old ++ entry ts n u s)
  = name_lines old + name_lines (entry ts n u s).
Proof.
  assert (H : exists body, entry ts n u s = nl ++ body)
    by (eexists; reflexivity).
  destruct H as [body Hb]. rewrite Hb.
  rewrite name_lines_app_nl, name_lines_nl. reflexivity.
Qed.

Lemma save_text c f :
  fst (save c f)
  = Some (file_text f ++ entry (strftime (c_now c)) (c_name c) (c_url c) (c_summary c)).
Proof. destruct f; reflexivity. Qed.

Lemma save_count c f :
  snd (save c f) = Some (name_lines (file_text f) + 1 + embedded c).
Proof.
  unfold save, save_candidate_to_file. cbn [snd].
  replace (append_file f _) with (fst (save c f)) by reflexivity.
  rewrite save_text, candidate_count_spec.
  rewrite name_lines_append_entry, name_lines_entry, strftime_no_breaks.
  unfold embedded. f_equal. lia.
Qed.

Lemma save_all_fst_cons c cs f :
  fst (save_all (c :: cs) f) = fst (save_all cs (fst (save c f))).
Proof.
  cbn [save_all]. destruct (save c f) as [f1 n]. cbn [fst].
  destruct (save_all cs f1). reflexivity.
Qed.

Lemma save_all_name_lines cs :
  forall f,
    name_lines (file_text (fst (save_all cs f)))
    = name_lines (file_text f) + List.length cs + total_embedded cs.
Proof.
  induction cs as [|c cs IH]; intros f.
  - simpl. unfold total_embedded. simpl. lia.
  - rewrite save_all_fst_cons, IH, save_text. cbn [file_text].
    rewrite name_lines_append_entry, name_lines_entry, strftime_no_breaks.
    unfold total_embedded, embedded. simpl. lia.
Qed.

Lemma utf8_app a b : utf8 (a ++ b) = (utf8 a ++ utf8 b)%list.
Proof.
  induction a as [|c a IH]; [reflexivity|].
  simpl. rewrite IH, app_assoc. reflexivity.
Qed.

Lemma total_embedded_app cs c :
  total_embedded (cs ++ [c]) = total_embedded cs + embedded c.
Proof.
  unfold total_embedded. rewrite map_app, list_sum_app. simpl. lia.
Qed.

End LogFacts.

Section LogTheorems.
Import Log Aux.

Lemma readlines_app_nl a b :
  readlines (a ++ nl ++ b) = (readlines (a ++ nl) ++ readlines b)%list.
Proof.
  induction a as [|c a IH]; [reflexivity|].
  cbn [append readlines]. rewrite IH.
  destruct (Ascii.eqb c Chr.newline); [reflexivity|].
  destruct (readlines (a ++ nl)) as [|l ls] eqn:Hr; [|reflexivity].
  apply readlines_nil in Hr. destruct a; discriminate.
Qed.

Lemma readlines_one_line l :
  Str.contains_chr Chr.newline l = false -> readlines (l ++ nl) = [l ++ nl].
Proof.
  induction l as [|c l IH]; intros H; [reflexivity|].
  cbn [Str.contains_chr] in H. apply orb_false_elim in H as [Hc H].
  cbn [append readlines]. rewrite Hc, (IH H). reflexivity.
Qed.

Lemma readlines_line l b :
  Str.contains_chr Chr.newline l = false ->
  readlines (l ++ nl ++ b) = (l ++ nl) :: readlines b.
Proof. intros H. rewrite readlines_app_nl, (readlines_one_line _ H). reflexivity. Qed.

Lemma contains_chr_app c a b :
  Str.contains_chr c (a ++ b) = Str.contains_chr c a || Str.contains_chr c b.
Proof.
  induction a as [|d a IH]; [reflexivity|].
  cbn [append Str.contains_chr]. rewrite IH, orb_assoc. reflexivity.
Qed.

Lemma digit_not_newline n : Ascii.eqb (digit n) Chr.newline = false.
Proof.
  unfold digit.
  destruct (n mod 10) as [|[|[|[|[|[|[|[|[|k]]]]]]]]]; reflexivity.
Qed.

Lemma strftime_one_line d : Str.contains_chr Chr.newline (strftime d) = false.
Proof.
  unfold strftime, pad4, pad2. cbn [append Str.contains_chr].
  rewrite !digit_not_newline. reflexivity.
Qed.

Lemma save_all_snoc cs c :
  forall f,
    save_all (cs ++ [c]) f
    = (fst (save c (fst (save_all cs f))),
       (snd (save_all cs f) ++ [snd (save c (fst (save_all cs f)))])%list).
Proof.
  induction cs as [|c0 cs IH]; intros f.
  - cbn [app save_all fst snd]. destruct (save c f). reflexivity.
  - cbn [app save_all]. destruct (save c0 f) as [f1 n]. rewrite IH.
    destruct (save_all cs f1). reflexivity.
Qed.

(** C8 (as amended): the text the writer appends is one empty line
    followed by the record of the specification: separator of sixty
    ['='], Date, Name, URL and Reason lines, separator, empty line.  With
    a name and a URL that hold no line feed, the lines of the appended
    text are listed. *)
Theorem record_opens_with_blank_line :
  forall now person_name url summary f,
    fst (save_candidate_to_file now person_name url summary f)
    = append_file f
        (nl ++ Claims.spec_record (strftime now) person_name url summary)
    /\ String.length separator = 60
    /\ (Str.contains_chr Chr.newline person_name = false ->
        Str.contains_chr Chr.newline url = false ->
        readlines (entry (strftime now) person_name url summary)
        = app [nl; separator ++ nl; "Date: " ++ strftime now ++ nl;
               "Name: " ++ person_name ++ nl; "URL: " ++ url ++ nl]
            (app (readlines ("Reason: " ++ summary ++ nl))
               [separator ++ nl; nl])).
Proof.
  intros now person_name url summary f.
  split; [reflexivity|]. split; [reflexivity|].
  intros Hn Hu. unfold entry.
  change (nl ++ separator ++ ?x) with ("" ++ nl ++ separator ++ x).
  rewrite (readlines_line "") by reflexivity.
  rewrite (readlines_line separator) by reflexivity.
  rewrite <- (append_assoc "Date: ").
  rewrite (readlines_line ("Date: " ++ strftime now))
    by (rewrite contains_chr_app, strftime_one_line; reflexivity).
  rewrite <- (append_assoc "Name: ").
  rewrite (readlines_line ("Name: " ++ person_name))
    by (rewrite contains_chr_app, Hn; reflexivity).
  rewrite <- (append_assoc "URL: ").
  rewrite (readlines_line ("URL: " ++ url))
    by (rewrite contains_chr_app, Hu; reflexivity).
  rewrite <- (append_assoc "Reason: ").
  rewrite (readlines_app_nl ("Reason: " ++ summary)).
  rewrite (readlines_line separator) by reflexivity.
  rewrite append_assoc. reflexivity.
Qed.

Lemma record_opens_with_blank_line_witness :
  readlines (entry (strftime (Datetime 2024 5 6 7 8 9)) "Jane Doe"
               "https://example.org/p/1" "Built a surgical robot")
  = [nl; separator ++ nl; "Date: 2024-05-06 07:08:09" ++ nl;
     "Name: Jane Doe" ++ nl; "URL: https://example.org/p/1" ++ nl;
     "Reason: Built a surgical robot" ++ nl; separator ++ nl; nl].
Proof.
  destruct (record_opens_with_blank_line (Datetime 2024 5 6 7 8 9) "Jane Doe"
              "https://example.org/p/1" "Built a surgical robot" None)
    as [_ [_ H]].
  rewrite (H eq_refl eq_refl). reflexivity.
Defined.

(** C8 (as stated, refuted): the appended text is not the bare record
    of the specification; it opens with an empty line. *)
Lemma record_format_counterexample :
  ~ Claims.record_format_claim (Datetime 2024 5 6 7 8 9) "Jane Doe"
      "https://example.org/p/1" "Built a surgical robot" None.
Proof.
  unfold Claims.record_format_claim. intros H.
  apply (f_equal (fun o => match o with
                           | Some (String c _) => Ascii.eqb c "="
                           | _ => false
                           end)) in H.
  vm_compute in H. discriminate H.
Qed.

(** C7 (as amended): starting from an empty log, the call number N
    prints N plus the number of line breaks directly followed by
    ["Name:"] inside the names, URLs and summaries written so far, and
    the bytes the file held before the call are a prefix of the bytes it
    holds after it. *)
Theorem count_after_nth_write :
  forall on_disk cs c,
    let before := fst (save_all cs (empty_log on_disk)) in
    let after := fst (save_all (cs ++ [c]) (empty_log on_disk)) in
    snd (save_all (cs ++ [c]) (empty_log on_disk))
    = app (snd (save_all cs (empty_log on_disk)))
        [Some (S (List.length cs) + total_embedded (cs ++ [c]))]
    /\ file_bytes after
       = app (file_bytes before)
           (utf8 (entry (strftime (c_now c)) (c_name c) (c_url c) (c_summary c))).
Proof.
  intros on_disk cs c before after. subst before after.
  rewrite save_all_snoc. cbn [fst snd]. split.
  - f_equal. f_equal. rewrite save_count, save_all_name_lines.
    rewrite total_embedded_app.
    assert (H0 : name_lines (file_text (empty_log on_disk)) = 0)
      by (destruct on_disk; reflexivity).
    rewrite H0. f_equal. lia.
  - rewrite save_text. cbn [file_bytes]. rewrite utf8_app.
    destruct (fst (save_all cs (empty_log on_disk))); reflexivity.
Qed.

(** C7 (as stated, refuted): one record whose summary holds a line that
    opens with ["Name:"] makes the first call print 2. *)
Lemma count_is_number_of_records_counterexample :
  ~ Claims.count_is_number_of_records_claim
      [Candidate (Datetime 2024 5 6 7 8 9) "Jane Doe" "https://example.org/p/1"
         ("Built a surgical robot." ++ nl ++ "Name: of the robot: Robbie")].
Proof.
  unfold Claims.count_is_number_of_records_claim. intros H.
  assert (Hd : NoDup (map c_name
            [Candidate (Datetime 2024 5 6 7 8 9) "Jane Doe" "https://example.org/p/1"
               ("Built a surgical robot." ++ nl ++ "Name: of the robot: Robbie")])).
  { constructor; [intros []|constructor]. }
  specialize (H Hd). vm_compute in H. discriminate H.
Qed.

(** The count printed last in a run of calls. *)
Lemma save_all_last cs :
  forall f,
    cs <> [] ->
    last (snd (save_all cs f)) None
    = Some (name_lines (file_text f) + List.length cs + total_embedded cs).
Proof.
  induction cs as [|c cs IH]; intros f Hne; [congruence|].
  assert (Hsnd : snd (save_all (c :: cs) f)
                 = snd (save c f) :: snd (save_all cs (fst (save c f)))).
  { cbn [save_all]. destruct (save c f) as [f1 n]. cbn [fst snd].
    destruct (save_all cs f1). reflexivity. }
  rewrite Hsnd. destruct cs as [|c2 cs].
  - cbn [save_all snd last]. rewrite save_count.
    unfold total_embedded. cbn [map list_sum fold_right List.length]. apply f_equal. lia.
  - assert (Hcons : exists x l, snd (save_all (c2 :: cs) (fst (save c f))) = x :: l).
    { cbn [save_all]. destruct (save c2 (fst (save c f))) as [f1 n].
      destruct (save_all cs f1). eexists _, _. reflexivity. }
    destruct Hcons as [x [l Hl]].
    assert (Hlast : last (snd (save c f) :: snd (save_all (c2 :: cs) (fst (save c f)))) None
                    = last (snd (save_all (c2 :: cs) (fst (save c f)))) None).
    { rewrite Hl. reflexivity. }
    rewrite Hlast, IH by discriminate.
    rewrite save_text. cbn [file_text].
    rewrite name_lines_append_entry, name_lines_entry, strftime_no_breaks.
    unfold total_embedded, embedded. cbn [map list_sum fold_right List.length].
    apply f_equal. lia.
Qed.

Lemma breaks_name_line a b : 1 <= breaks_before_name (a ++ nl ++ "Name:" ++ b).
Proof.
  rewrite breaks_app_nl. unfold name_lines. cbn [append Str.startswith].
  rewrite startswith_empty. cbn. lia.
Qed.

(** C10: the count the writer prints is the number of places of the
    file it has just written where a line opens with ["Name:"]: those
    of the text the file held before, the Name line of the new record,
    and every line break directly followed by ["Name:"] inside the
    record's name, URL and Reason text.  So a summary that holds a line
    opening with ["Name:"] is counted, and, from an empty log, the count
    printed last in any run of calls that wrote such a record exceeds
    the number of records appended. *)
Theorem count_includes_reason_lines :
  (forall now person_name url summary f,
     let written :=
       file_text f ++ entry (strftime now) person_name url summary in
     save_candidate_to_file now person_name url summary f
     = (Some written, Some (name_lines written))
     /\ name_lines written
        = name_lines (file_text f) + 1
          + breaks_before_name person_name + breaks_before_name url
          + breaks_before_name summary)
  /\ (forall a b, 1 <= breaks_before_name (a ++ nl ++ "Name:" ++ b))
  /\ (forall on_disk cs1 cs2 now person_name url a b,
        let c := Candidate now person_name url (a ++ nl ++ "Name:" ++ b) in
        exists n,
          last (snd (save_all (cs1 ++ c :: cs2) (empty_log on_disk))) None
          = Some n
          /\ List.length (cs1 ++ c :: cs2) < n).
Proof.
  splits.
  - intros now person_name url summary f written. subst written.
    pose proof (save_text (Candidate now person_name url summary) f) as Ht.
    pose proof (save_count (Candidate now person_name url summary) f) as Hc.
    unfold save, embedded in Ht, Hc.
    cbn [c_now c_name c_url c_summary] in Ht, Hc.
    rewrite name_lines_append_entry, name_lines_entry, strftime_no_breaks.
    split; [|lia].
    rewrite (surjective_pairing (save_candidate_to_file _ _ _ _ _)).
    rewrite Ht, Hc. apply f_equal. apply f_equal. lia.
  - exact breaks_name_line.
  - intros on_disk cs1 cs2 now person_name url a b c.
    eexists. split.
    + apply save_all_last. destruct cs1; discriminate.
    + assert (H0 : name_lines (file_text (empty_log on_disk)) = 0)
        by (destruct on_disk; reflexivity).
      rewrite H0. unfold total_embedded.
      rewrite map_app, list_sum_app. cbn [map list_sum fold_right].
      pose proof (breaks_name_line a b) as Hb.
      unfold embedded at 2. subst c. cbn [c_name c_url c_summary]. lia.
Qed.

End LogTheorems.

(** ** The matcher *)

Section MatcherFacts.
Import Re Aux.
Context {A : Type}.
Implicit Types (k : cont (A := A)) (s p : string).

Lemma lit_complete ci p k lab rest :
  word_matches ci p lab = true -> lit ci p k (lab ++ rest) = k rest.
Proof.
  revert lab. induction p as [|a p IH]; intros [|c lab] H; try discriminate.
  - reflexivity.
  - cbn [word_matches] in H. apply andb_prop in H as [Hc H].
    cbn [append lit]. rewrite Hc. apply IH, H.
Qed.

Lemma lit_sound ci p k s r :
  lit ci p k s = Some r ->
  exists lab rest, s = lab ++ rest /\ word_matches ci p lab = true /\ k rest = Some r.
Proof.
  revert s. induction p as [|a p IH]; intros s H.
  - exists "", s. auto.
  - destruct s as [|c s]; [discriminate|]. cbn [lit] in H.
    destruct (Chr.matches ci a c) eqn:Hc; [|discriminate].
    destruct (IH _ H) as [lab [rest [-> [Hw Hk]]]].
    exists (String c lab), rest. cbn [word_matches]. rewrite Hc. auto.
Qed.

Lemma lit_head_mismatch ci a p k c s :
  Chr.matches ci a c = false -> lit ci (String a p) k (String c s) = None.
Proof. intros H. cbn [lit]. rewrite H. reflexivity. Qed.

Lemma star_sound cls k s r :
  star cls k s = Some r ->
  exists ws rest, s = ws ++ rest /\ all_chars cls ws = true /\ k rest = Some r.
Proof.
  induction s as [|c s IH]; intros H.
  - exists "", "". auto.
  - cbn [star] in H. destruct (cls c) eqn:Hc.
    + destruct (star cls k s) as [r'|] eqn:Hs.
      * injection H as ->. destruct (IH eq_refl) as [ws [rest [-> [Hw Hk]]]].
        exists (String c ws), rest. cbn [all_chars]. rewrite Hc. auto.
      * exists "", (String c s). auto.
    + exists "", (String c s). auto.
Qed.

Lemma star_longest cls k ws rest r :
  all_chars cls ws = true -> blocked cls rest = true -> k rest = Some r ->
  star cls k (ws ++ rest) = Some r.
Proof.
  intros Hw Hb Hk. induction ws as [|c ws IH].
  - cbn [append]. destruct rest as [|c rest]; [exact Hk|].
    cbn [star]. cbn [blocked] in Hb. apply negb_true_iff in Hb.
    rewrite Hb. exact Hk.
  - cbn [all_chars] in Hw. apply andb_prop in Hw as [Hc Hw].
    cbn [append star]. rewrite Hc, (IH Hw). reflexivity.
Qed.

Lemma word_group_complete ci p acc (k : string -> cont (A := A)) w rest :
  word_matches ci p w = true ->
  word_group ci p acc k (w ++ rest) = k (acc ++ w) rest.
Proof.
  revert acc w. induction p as [|a p IH]; intros acc [|c w] H; try discriminate.
  - cbn [append word_group]. rewrite append_empty_r. reflexivity.
  - cbn [word_matches] in H. apply andb_prop in H as [Hc H].
    cbn [append word_group]. rewrite Hc, (IH _ _ H), append_assoc. reflexivity.
Qed.

Lemma word_group_sound ci p acc (k : string -> cont (A := A)) s r :
  word_group ci p acc k s = Some r ->
  exists w rest, s = w ++ rest /\ word_matches ci p w = true
                 /\ k (acc ++ w) rest = Some r.
Proof.
  revert acc s. induction p as [|a p IH]; intros acc s H.
  - exists "", s. rewrite append_empty_r. auto.
  - destruct s as [|c s]; [discriminate|]. cbn [word_group] in H.
    destruct (Chr.matches ci a c) eqn:Hc; [|discriminate].
    destruct (IH _ _ H) as [w [rest [-> [Hw Hk]]]].
    exists (String c w), rest. cbn [word_matches]. rewrite Hc.
    rewrite append_assoc in Hk. auto.
Qed.

Lemma search_hit (m : cont (A := A)) s r : m s = Some r -> search m s = Some r.
Proof. intros H. destruct s; cbn [search]; rewrite H; reflexivity. Qed.

Lemma search_step (m : cont (A := A)) c s :
  m (String c s) = None -> search m (String c s) = search m s.
Proof. intros H. cbn [search]. rewrite H. reflexivity. Qed.

(** [search] returns the match at the leftmost offset that has one. *)
Lemma search_spec (m : cont (A := A)) t r :
  search m t = Some r <->
  exists pre u,
    t = pre ++ u /\ m u = Some r
    /\ forall p q, t = p ++ q -> String.length p < String.length pre -> m q = None.
Proof.
  split.
  - induction t as [|c t IH]; intros H.
    + cbn [search] in H. destruct (m "") eqn:Hm; [|discriminate].
      injection H as ->. exists "", "". repeat split; auto.
      intros p q _ Hlt. cbn in Hlt. lia.
    + cbn [search] in H. destruct (m (String c t)) eqn:Hm.
      * injection H as ->. exists "", (String c t). repeat split; auto.
        intros p q _ Hlt. cbn in Hlt. lia.
      * destruct (IH H) as [pre [u [-> [Hu Hbefore]]]].
        exists (String c pre), u. repeat split; auto.
        intros [|d p] q Hq Hlt.
        -- cbn [append] in Hq. subst q. exact Hm.
        -- cbn [append] in Hq. injection Hq as _ Hq.
           apply (Hbefore p q Hq). cbn in Hlt. lia.
  - intros [pre [u [-> [Hu Hbefore]]]].
    induction pre as [|c pre IH].
    + apply search_hit. exact Hu.
    + cbn [append]. rewrite search_step.
      * apply IH. intros p q Hq Hlt.
        apply (Hbefore (String c p) q); [cbn [append]; congruence | cbn; lia].
      * apply (Hbefore "" (String c (pre ++ u))); [reflexivity | cbn; lia].
Qed.

Lemma search_none (m : cont (A := A)) t :
  (forall p q, t = p ++ q -> m q = None) -> search m t = None.
Proof.
  induction t as [|c t IH]; intros H.
  - cbn [search]. rewrite (H "" ""); reflexivity.
  - cbn [search]. rewrite (H "" (String c t)) by reflexivity.
    apply IH. intros p q ->. apply (H (String c p)). reflexivity.
Qed.

End MatcherFacts.

(** ** The response parser *)

Section ParserFacts.
Import Re Aux Parser.

Lemma all_ascii (P : ascii -> bool) :
  (forall b0 b1 b2 b3 b4 b5 b6 b7, P (Ascii b0 b1 b2 b3 b4 b5 b6 b7) = true) ->
  forall c, P c = true.
Proof. intros H [b0 b1 b2 b3 b4 b5 b6 b7]. apply H. Qed.

Ltac by_cases_on_ascii :=
  apply all_ascii; intros [] [] [] [] [] [] [] []; vm_compute; reflexivity.

Lemma upper_lower_b :
  forall c, Ascii.eqb (Chr.upper (Chr.lower c)) (Chr.upper c) = true.
Proof. by_cases_on_ascii. Qed.

Lemma lower_upper_b :
  forall c, Ascii.eqb (Chr.lower (Chr.upper c)) (Chr.lower c) = true.
Proof. by_cases_on_ascii. Qed.

Lemma lower_lower_b :
  forall c, Ascii.eqb (Chr.lower (Chr.lower c)) (Chr.lower c) = true.
Proof. by_cases_on_ascii. Qed.

Lemma upper_upper_b :
  forall c, Ascii.eqb (Chr.upper (Chr.upper c)) (Chr.upper c) = true.
Proof. by_cases_on_ascii. Qed.

Lemma isspace_upper_b :
  forall c, Bool.eqb (Chr.isspace (Chr.upper c)) (Chr.isspace c) = true.
Proof. by_cases_on_ascii. Qed.

Lemma isspace_lower_b :
  forall c, Bool.eqb (Chr.isspace (Chr.lower c)) (Chr.isspace c) = true.
Proof. by_cases_on_ascii. Qed.

Lemma letter_not_space_b :
  forall c, implb (Ascii.eqb (Chr.lower c) "y" || Ascii.eqb (Chr.lower c) "n")
              (negb (Chr.isspace c)) = true.
Proof. by_cases_on_ascii. Qed.

Lemma upper_lower c : Chr.upper (Chr.lower c) = Chr.upper c.
Proof. apply Ascii.eqb_eq, upper_lower_b. Qed.

Lemma word_matches_ci p w : word_matches true p w = ci_equal w p.
Proof.
  unfold ci_equal. revert w.
  induction p as [|a p IH]; intros [|c w]; try reflexivity.
  cbn [word_matches Str.lower String.eqb]. rewrite IH.
  unfold Chr.matches. rewrite (Ascii.eqb_sym (Chr.lower a)). reflexivity.
Qed.

Lemma word_matches_cs p w : word_matches false p w = String.eqb p w.
Proof.
  revert w. induction p as [|a p IH]; intros [|c w]; try reflexivity.
  cbn [word_matches String.eqb]. rewrite IH. reflexivity.
Qed.

Lemma upper_of_ci_equal g p : ci_equal g p = true -> Str.upper g = Str.upper p.
Proof.
  unfold ci_equal. revert p.
  induction g as [|c g IH]; intros [|a p] H; try discriminate; [reflexivity|].
  cbn [Str.lower String.eqb] in H. apply andb_prop in H as [Hc H].
  apply Ascii.eqb_eq in Hc. cbn [Str.upper].
  rewrite (IH _ H), <- (upper_lower c), Hc, upper_lower. reflexivity.
Qed.

(** A token opens with a visible character. *)
Lemma token_blocks_space tok rest :
  ci_equal tok "YES" = true \/ ci_equal tok "NO" = true ->
  blocked Chr.isspace (tok ++ rest) = true.
Proof.
  intros H.
  assert (Hc : exists c w, tok = String c w
              /\ (Ascii.eqb (Chr.lower c) "y" || Ascii.eqb (Chr.lower c) "n") = true).
  { destruct H as [H|H]; unfold ci_equal in H;
      (destruct tok as [|c w]; [discriminate|]);
      cbn [Str.lower String.eqb] in H; apply andb_prop in H as [H _];
      exists c, w; (split; [reflexivity|]).
    - change (Chr.lower "Y") with "y"%char in H. rewrite H. reflexivity.
    - change (Chr.lower "N") with "n"%char in H. rewrite H. apply orb_true_r. }
  destruct Hc as [c [w [-> Hc]]]. cbn [append blocked].
  pose proof (letter_not_space_b c) as Hl. rewrite Hc in Hl. exact Hl.
Qed.

Lemma alt_yes_no_complete tok rest :
  ci_equal tok "YES" = true \/ ci_equal tok "NO" = true ->
  alt_group true ["YES"; "NO"] group1 (tok ++ rest) = Some tok.
Proof.
  intros [H|H]; cbn [alt_group].
  - rewrite word_group_complete by (rewrite word_matches_ci; exact H).
    reflexivity.
  - assert (Hfirst : word_group true "YES" "" group1 (tok ++ rest) = None).
    { unfold ci_equal in H. destruct tok as [|c w]; [discriminate|].
      cbn [Str.lower String.eqb] in H. apply andb_prop in H as [Hc _].
      apply Ascii.eqb_eq in Hc. cbn [append word_group].
      unfold Chr.matches. rewrite Hc. reflexivity. }
    rewrite Hfirst.
    rewrite word_group_complete by (rewrite word_matches_ci; exact H).
    reflexivity.
Qed.

Lemma alt_yes_no_sound s tok :
  alt_group true ["YES"; "NO"] group1 s = Some tok ->
  exists rest, s = tok ++ rest
               /\ (ci_equal tok "YES" = true \/ ci_equal tok "NO" = true).
Proof.
  cbn [alt_group]. intros H.
  destruct (word_group true "YES" "" group1 s) as [r|] eqn:H1.
  - injection H as ->. apply word_group_sound in H1 as [w [rest [-> [Hw Hk]]]].
    injection Hk as <-. exists rest. rewrite word_matches_ci in Hw. auto.
  - destruct (word_group true "NO" "" group1 s) as [r|] eqn:H2; [|discriminate].
    injection H as ->. apply word_group_sound in H2 as [w [rest [-> [Hw Hk]]]].
    injection Hk as <-. exists rest. rewrite word_matches_ci in Hw. auto.
Qed.

(** The pattern of the flag matches at the start of [u], capturing
    [tok], exactly when [u] opens with the tag carrying [tok]. *)
Lemma experience_re_spec u tok : experience_re u = Some tok <-> tag_at u tok.
Proof.
  unfold experience_re, tag_at. split.
  - intros H.
    apply lit_sound in H as [lab [r1 [-> [Hlab H]]]].
    apply star_sound in H as [ws [r2 [-> [Hws H]]]].
    apply alt_yes_no_sound in H as [rest [-> Htok]].
    exists lab, ws, rest. rewrite word_matches_ci in Hlab. auto.
  - intros [lab [ws [rest [-> [Hlab [Hws Htok]]]]]].
    rewrite lit_complete by (rewrite word_matches_ci; exact Hlab).
    apply star_longest; [exact Hws | apply token_blocks_space, Htok
                        | apply alt_yes_no_complete, Htok].
Qed.

Lemma experience_re_none u : experience_re u = None <-> forall tk, ~ tag_at u tk.
Proof.
  split.
  - intros H tk Ht. apply experience_re_spec in Ht. congruence.
  - intros H. destruct (experience_re u) as [tk|] eqn:E; [|reflexivity].
    apply experience_re_spec in E. destruct (H _ E).
Qed.

Lemma search_experience_spec t tok :
  search experience_re t = Some tok <-> leftmost_tag t tok.
Proof.
  rewrite search_spec. unfold leftmost_tag.
  split; intros [pre [u [Ht [Hu Hb]]]]; exists pre, u;
    (split; [exact Ht|]); split.
  - apply experience_re_spec, Hu.
  - intros p q Hq Hlt. apply experience_re_none. eauto.
  - apply experience_re_spec, Hu.
  - intros p q Hq Hlt. apply experience_re_none. eauto.
Qed.

Lemma leftmost_tag_token t tok :
  leftmost_tag t tok -> ci_equal tok "YES" = true \/ ci_equal tok "NO" = true.
Proof. intros [pre [u [_ [[lab [ws [rest [_ [_ [_ H]]]]]] _]]]]. exact H. Qed.

Lemma flag_of_search t :
  has_experience (parse_response t)
  = match search experience_re t with
    | Some g => PyBool (String.eqb (Str.upper g) "YES")
    | None => PyNone
    end.
Proof. reflexivity. Qed.

(** C2 (as amended): the flag is the boolean true exactly when the
    leftmost place where the text reads EXPERIENCE:, optional
    whitespace and YES or NO, all compared without regard to case,
    carries YES; when that place carries NO the flag is the boolean
    false; and a text without such a place has a flag that is not
    true. *)
Theorem experience_flag_leftmost_tag :
  forall t,
    (has_experience (parse_response t) = PyBool true
     <-> exists tok, leftmost_tag t tok /\ ci_equal tok "YES" = true)
    /\ (forall tok,
          leftmost_tag t tok -> ci_equal tok "NO" = true ->
          has_experience (parse_response t) = PyBool false)
    /\ ((forall tok, ~ leftmost_tag t tok) ->
        truthy (has_experience (parse_response t)) = false).
Proof.
  intros t. rewrite flag_of_search.
  destruct (search experience_re t) as [g|] eqn:E.
  - pose proof (proj1 (search_experience_spec t g) E) as Hg.
    destruct (leftmost_tag_token _ _ Hg) as [Hy|Hn].
    + rewrite (upper_of_ci_equal _ _ Hy). splits.
      * split; [intros _; eauto | reflexivity].
      * intros tok Ht Hno. apply search_experience_spec in Ht.
        assert (tok = g) by congruence. subst tok.
        apply upper_of_ci_equal in Hy, Hno. rewrite Hy in Hno. discriminate.
      * intros Hnone. exfalso. exact (Hnone g Hg).
    + rewrite (upper_of_ci_equal _ _ Hn). splits.
      * split; [discriminate|].
        intros [tok [Ht Hyes]]. apply search_experience_spec in Ht.
        assert (tok = g) by congruence. subst tok.
        apply upper_of_ci_equal in Hn, Hyes. rewrite Hn in Hyes. discriminate.
      * reflexivity.
      * reflexivity.
  - splits.
    + split; [discriminate|].
      intros [tok [Ht _]]; apply search_experience_spec in Ht; congruence.
    + intros tok Ht _. apply search_experience_spec in Ht. congruence.
    + reflexivity.
Qed.

(** C2 (as stated, refuted): a text whose first tag says NO and whose
    second tag says YES contains the label followed by YES, and its flag
    is false. *)
Lemma experience_flag_counterexample :
  ~ Claims.experience_flag_claim "EXPERIENCE: NO (the summary says EXPERIENCE: YES)".
Proof.
  unfold Claims.experience_flag_claim. intros [_ H].
  specialize (H eq_refl). vm_compute in H. discriminate H.
Qed.

(** C5 (code at the failing input): on the empty answer the three
    searches find nothing; the name and the summary take their defaults
    and the flag is [None], the left operand of the [and], not the
    boolean false of the default verdict. *)
Theorem parse_empty_response :
  parse_response "" = Verdict PyNone "Unknown" "No summary available"
  /\ parse_response "" <> Claims.default_verdict.
Proof. split; [reflexivity | discriminate]. Qed.

End ParserFacts.

(** ** Case of the labels *)

Section CaseFacts.
Import Re Aux Parser.

Lemma lit_needs_prefix {A} p (k : cont (A := A)) s r :
  lit false p k s = Some r -> Str.startswith s p = true.
Proof.
  revert s. induction p as [|a p IH]; intros s H.
  - apply startswith_empty.
  - destruct s as [|c s]; [discriminate|]. cbn [lit] in H.
    unfold Chr.matches in H. destruct (Ascii.eqb a c) eqn:Hc; [|discriminate].
    cbn [Str.startswith]. rewrite Ascii.eqb_sym, Hc. apply (IH _ H).
Qed.

Lemma search_absent_label {A} p (k : cont (A := A)) t :
  Claims.contains t p = false -> search (lit false p k) t = None.
Proof.
  induction t as [|c t IH]; intros H; cbn [Claims.contains] in H;
    apply orb_false_elim in H as [H0 H].
  - cbn [search]. destruct (lit false p k "") eqn:E; [|reflexivity].
    apply lit_needs_prefix in E. congruence.
  - cbn [search]. destruct (lit false p k (String c t)) eqn:E.
    + apply lit_needs_prefix in E. congruence.
    + apply IH, H.
Qed.

(** A change of case [f] of the characters: it respects the
    case-insensitive comparison, the whitespace class and [upper]. *)
Section CaseChange.
Variable f : ascii -> ascii.
Hypothesis f_lower : forall c, Chr.lower (f c) = Chr.lower c.
Hypothesis f_space : forall c, Chr.isspace (f c) = Chr.isspace c.
Hypothesis f_upper : forall c, Chr.upper (f c) = Chr.upper c.

Let F := map_chr f.

Lemma map_chr_app a b : F (a ++ b) = F a ++ F b.
Proof. induction a as [|c a IH]; [reflexivity|]. cbn. rewrite <- IH. reflexivity. Qed.

Lemma lit_case {A B} (g : A -> B) p (k : cont) (k' : cont) :
  (forall s, k' (F s) = option_map g (k s)) ->
  forall s, lit true p k' (F s) = option_map g (lit true p k s).
Proof.
  intros Hk. induction p as [|a p IH]; intros s; [apply Hk|].
  destruct s as [|c s]; [reflexivity|].
  cbn [F map_chr lit]. unfold Chr.matches. rewrite f_lower.
  destruct (Ascii.eqb (Chr.lower a) (Chr.lower c)); [apply IH | reflexivity].
Qed.

Lemma star_case {A B} (g : A -> B) (k : cont) (k' : cont) :
  (forall s, k' (F s) = option_map g (k s)) ->
  forall s, star Chr.isspace k' (F s) = option_map g (star Chr.isspace k s).
Proof.
  intros Hk. induction s as [|c s IH]; [apply (Hk "")|].
  cbn [F map_chr star]. rewrite f_space.
  destruct (Chr.isspace c); [|apply (Hk (String c s))].
  fold F. rewrite IH.
  destruct (star Chr.isspace k s); [reflexivity|]. apply (Hk (String c s)).
Qed.

Lemma word_group_case p :
  forall acc s,
    word_group true p (F acc) group1 (F s)
    = option_map F (word_group true p acc group1 s).
Proof.
  induction p as [|a p IH]; intros acc s; [reflexivity|].
  destruct s as [|c s]; [reflexivity|].
  cbn [F map_chr word_group]. unfold Chr.matches. rewrite f_lower.
  destruct (Ascii.eqb (Chr.lower a) (Chr.lower c)); [|reflexivity].
  fold F. change (String (f c) "") with (F (String c "")).
  rewrite <- map_chr_app. apply IH.
Qed.

Lemma alt_group_case alts :
  forall s,
    alt_group true alts group1 (F s)
    = option_map F (alt_group true alts group1 s).
Proof.
  induction alts as [|p alts IH]; intros s; [reflexivity|].
  cbn [alt_group]. change "" with (F "") at 1. rewrite word_group_case.
  destruct (word_group true p "" group1 s); [reflexivity | apply IH].
Qed.

Lemma experience_re_case s :
  experience_re (F s) = option_map F (experience_re s).
Proof.
  unfold experience_re. apply lit_case. apply star_case. apply alt_group_case.
Qed.

Lemma search_case {A B} (g : A -> B) (m : cont) (m' : cont) :
  (forall s, m' (F s) = option_map g (m s)) ->
  forall s, search m' (F s) = option_map g (search m s).
Proof.
  intros Hm. induction s as [|c s IH].
  - pose proof (Hm "") as H0. change (F "") with "" in *.
    cbn [search]. rewrite H0. destruct (m ""); reflexivity.
  - pose proof (Hm (String c s)) as H0.
    change (F (String c s)) with (String (f c) (F s)) in *.
    cbn [search]. rewrite H0.
    destruct (m (String c s)); [reflexivity | apply IH].
Qed.

Lemma upper_case g : Str.upper (F g) = Str.upper g.
Proof.
  induction g as [|c g IH]; [reflexivity|].
  cbn [F map_chr Str.upper]. fold F. rewrite IH, f_upper. reflexivity.
Qed.

Lemma flag_case t :
  has_experience (parse_response (F t)) = has_experience (parse_response t).
Proof.
  rewrite !flag_of_search.
  rewrite (search_case F experience_re experience_re experience_re_case).
  destruct (search experience_re t); [|reflexivity].
  cbn [option_map]. rewrite upper_case. reflexivity.
Qed.

End CaseChange.

Lemma upper_is_map s : Str.upper s = map_chr Chr.upper s.
Proof. induction s; cbn; congruence. Qed.

Lemma lower_is_map s : Str.lower s = map_chr Chr.lower s.
Proof. induction s; cbn; congruence. Qed.

(** C3 (as amended): the labels NAME and SUMMARY are matched as written,
    so a text without ["NAME:"] (["SUMMARY:"]) in upper case leaves the
    name (the summary) at its default; the label EXPERIENCE and its
    token are both matched without regard to case, so the flag of a text
    does not change when the whole text is put in upper or in lower
    case. *)
Theorem labels_case_sensitivity :
  forall t,
    (Claims.contains t "NAME:" = false ->
     person_name (parse_response t) = "Unknown")
    /\ (Claims.contains t "SUMMARY:" = false ->
        summary (parse_response t) = "No summary available")
    /\ has_experience (parse_response (Str.upper t))
       = has_experience (parse_response t)
    /\ has_experience (parse_response (Str.lower t))
       = has_experience (parse_response t).
Proof.
  intros t. repeat split.
  - intros H. unfold parse_response, name_re. cbn [person_name].
    rewrite (search_absent_label _ _ _ H). reflexivity.
  - intros H. unfold parse_response, summary_re. cbn [summary].
    rewrite (search_absent_label _ _ _ H). reflexivity.
  - rewrite upper_is_map. apply flag_case.
    + intros c. apply Ascii.eqb_eq, lower_upper_b.
    + intros c. apply Bool.eqb_prop, isspace_upper_b.
    + intros c. apply Ascii.eqb_eq, upper_upper_b.
  - rewrite lower_is_map. apply flag_case.
    + intros c. apply Ascii.eqb_eq, lower_lower_b.
    + intros c. apply Bool.eqb_prop, isspace_lower_b.
    + intros c. apply upper_lower.
Qed.

Lemma labels_case_sensitivity_witness :
  person_name (parse_response "name: Jane Doe experience: yes summary: robots")
  = "Unknown"
  /\ summary (parse_response "name: Jane Doe experience: yes summary: robots")
     = "No summary available"
  /\ has_experience
       (parse_response (Str.upper "name: Jane Doe experience: yes summary: robots"))
     = has_experience
         (parse_response "name: Jane Doe experience: yes summary: robots").
Proof.
  destruct (labels_case_sensitivity
              "name: Jane Doe experience: yes summary: robots")
    as [Hn [Hs [Hu _]]].
  split; [apply Hn; reflexivity|]. split; [apply Hs; reflexivity | exact Hu].
Defined.

(** C3 (as stated, refuted): a text whose only label is the lower-case
    [experience:] binds the flag. *)
Lemma label_case_sensitive_counterexample :
  ~ Claims.label_case_sensitive_claim "experience: yes".
Proof.
  unfold Claims.label_case_sensitive_claim. intros H.
  specialize (H eq_refl). vm_compute in H. discriminate H.
Qed.

End CaseFacts.

(** ** Order of the fields *)

Section OrderFacts.
Import Re Aux Parser.

Lemma matches_colon_b :
  forall c, Bool.eqb (Chr.matches true ":" c) (Ascii.eqb c ":") = true.
Proof.
  apply all_ascii; intros [] [] [] [] [] [] [] []; vm_compute; reflexivity.
Qed.

Lemma matches_colon ci c : Chr.matches ci ":" c = Ascii.eqb c ":".
Proof.
  destruct ci.
  - apply Bool.eqb_prop, matches_colon_b.
  - apply Ascii.eqb_sym.
Qed.

(** A label cannot be read inside a value without colon that a line
    feed closes. *)
Lemma lit_blocked {A} ci p (k : cont (A := A)) :
  label_like ci p = true ->
  forall v rest,
    Str.contains_chr ":" v = false ->
    lit ci p k (v ++ String Chr.newline rest) = None.
Proof.
  induction p as [|a p IH]; intros Hp v rest Hv; [discriminate|].
  destruct p as [|a' p].
  - cbn [label_like] in Hp. apply Ascii.eqb_eq in Hp. subst a.
    destruct v as [|c v]; cbn [append lit]; rewrite matches_colon.
    + reflexivity.
    + cbn [Str.contains_chr] in Hv. apply orb_false_elim in Hv as [-> _].
      reflexivity.
  - cbn [label_like] in Hp. apply andb_prop in Hp as [Ha Hp].
    apply negb_true_iff in Ha.
    destruct v as [|c v]; cbn [append].
    + apply lit_head_mismatch, Ha.
    + cbn [Str.contains_chr] in Hv. apply orb_false_elim in Hv as [_ Hv].
      cbn [lit]. destruct (Chr.matches ci a c); [|reflexivity].
      apply (IH Hp v rest Hv).
Qed.

Lemma search_skip_value {A} ci p (k : cont (A := A)) :
  label_like ci p = true ->
  forall v rest,
    Str.contains_chr ":" v = false ->
    search (lit ci p k) (v ++ String Chr.newline rest) = search (lit ci p k) rest.
Proof.
  intros Hp v rest. induction v as [|c v IH]; intros Hv.
  - cbn [append]. apply search_step.
    apply (lit_blocked ci p k Hp "" rest). reflexivity.
  - cbn [append]. rewrite search_step.
    + apply IH. cbn [Str.contains_chr] in Hv.
      apply orb_false_elim in Hv as [_ Hv]. exact Hv.
    + apply (lit_blocked ci p k Hp (String c v) rest Hv).
Qed.

Lemma star_group_group1 cls s :
  forall acc, star_group cls acc group1 s = Some (acc ++ take_while cls s).
Proof.
  induction s as [|c s IH]; intros acc; cbn [star_group take_while].
  - rewrite append_empty_r. reflexivity.
  - destruct (cls c).
    + rewrite IH, append_assoc. reflexivity.
    + rewrite append_empty_r. reflexivity.
Qed.

Lemma take_while_line v rest :
  Str.contains_chr Chr.newline v = false ->
  take_while not_newline (v ++ String Chr.newline rest) = v.
Proof.
  induction v as [|c v IH]; intros H; [reflexivity|].
  cbn [Str.contains_chr] in H. apply orb_false_elim in H as [Hc H].
  cbn [append take_while]. unfold not_newline at 1. rewrite Hc. cbn [negb].
  rewrite (IH H). reflexivity.
Qed.

Lemma take_while_whole v :
  Str.contains_chr Chr.newline v = false -> take_while not_newline v = v.
Proof.
  induction v as [|c v IH]; intros H; [reflexivity|].
  cbn [Str.contains_chr] in H. apply orb_false_elim in H as [Hc H].
  cbn [take_while]. unfold not_newline at 1. rewrite Hc. cbn [negb].
  rewrite (IH H). reflexivity.
Qed.

Lemma take_while_any s : take_while any_char s = s.
Proof. induction s as [|c s IH]; [reflexivity|]. cbn. rewrite IH. reflexivity. Qed.

Lemma plain_inv v :
  plain v = true ->
  exists c w, v = String c w /\ Chr.isspace c = false
              /\ Str.contains_chr ":" v = false
              /\ Str.contains_chr Chr.newline v = false.
Proof.
  unfold plain. intros H.
  apply andb_prop in H as [H H3]. apply andb_prop in H as [H1 H2].
  apply negb_true_iff in H1, H2.
  destruct v as [|c w]; [discriminate|]. apply negb_true_iff in H3.
  exists c, w. auto.
Qed.

(** The pattern of the name, at a NAME line whose value is [n], with
    the end of the text or a line feed after it. *)
Lemma name_re_at n tail :
  plain n = true ->
  tail = "" \/ (exists rest, tail = String Chr.newline rest) ->
  name_re ("NAME: " ++ n ++ tail) = Some n.
Proof.
  intros Hn Htail.
  destruct (plain_inv _ Hn) as [c [w [-> [Hc [_ Hnl]]]]].
  unfold name_re.
  change ("NAME: " ++ String c w ++ tail)
    with ("NAME:" ++ " " ++ String c w ++ tail).
  rewrite lit_complete by reflexivity.
  rewrite (star_longest Chr.isspace _ " " (String c w ++ tail) (String c w)).
  - reflexivity.
  - reflexivity.
  - cbn [append blocked]. rewrite Hc. reflexivity.
  - cbn [append plus_group].
    pose proof Hnl as Hnl'. cbn [Str.contains_chr] in Hnl'.
    apply orb_false_elim in Hnl' as [Hc' Hw].
    unfold not_newline at 1. rewrite Hc'. cbn [negb].
    rewrite star_group_group1. cbn [append]. do 2 f_equal.
    destruct Htail as [-> | [rest ->]].
    + rewrite append_empty_r. apply take_while_whole, Hw.
    + apply take_while_line, Hw.
Qed.

(** The pattern of the summary, at a SUMMARY label followed by a text
    that opens with a visible character: the group runs to the end. *)
Lemma summary_re_at c x :
  Chr.isspace c = false ->
  summary_re ("SUMMARY: " ++ String c x) = Some (String c x).
Proof.
  intros Hc. unfold summary_re.
  change ("SUMMARY: " ++ String c x) with ("SUMMARY:" ++ " " ++ String c x).
  rewrite lit_complete by reflexivity.
  rewrite (star_longest Chr.isspace _ " " (String c x) (String c x)).
  - reflexivity.
  - reflexivity.
  - cbn [blocked]. rewrite Hc. reflexivity.
  - cbn [plus_group any_char]. rewrite star_group_group1, take_while_any.
    reflexivity.
Qed.

Lemma experience_re_at b rest :
  experience_re ("EXPERIENCE: " ++ Claims.answer b ++ String Chr.newline rest)
  = Some (Claims.answer b).
Proof. destruct b; reflexivity. Qed.

Ltac skip_fixed :=
  cbn [append Log.nl Claims.answer]; repeat (rewrite search_step by reflexivity).

Ltac skip_value H :=
  rewrite search_skip_value by (reflexivity || exact H).

(** C4 (as amended): for a synthetic response whose name and summary
    open with a visible character and hold neither a colon nor a line
    feed, both orders give the same name and the same flag; the summary
    of the forward order is the SUMMARY value, while in the reverse
    order the group of the SUMMARY pattern runs to the end of the text,
    so the summary also holds the EXPERIENCE and NAME lines. *)
Theorem reverse_order_verdict :
  forall n b s,
    plain n = true ->
    plain s = true ->
    parse_response (Claims.forward_response n b s)
    = Verdict (PyBool b) (Str.strip n) (Str.strip s)
    /\ parse_response (Claims.reverse_response n b s)
       = Verdict (PyBool b) (Str.strip n)
           (Str.strip (s ++ Log.nl ++ "EXPERIENCE: " ++ Claims.answer b
                       ++ Log.nl ++ "NAME: " ++ n)).
Proof.
  intros n b s Hn Hs.
  destruct (plain_inv _ Hn) as [cn [wn [En [Hcn [Hn1 Hn2]]]]].
  destruct (plain_inv _ Hs) as [cs [ws [Es [Hcs [Hs1 Hs2]]]]].
  split.
  - assert (Hname : search name_re (Claims.forward_response n b s) = Some n).
    { apply search_hit. unfold Claims.forward_response.
      apply name_re_at; [exact Hn|]. right. cbn [append Log.nl]. eauto. }
    assert (Hexp : search experience_re (Claims.forward_response n b s)
                   = Some (Claims.answer b)).
    { unfold Claims.forward_response, experience_re. skip_fixed.
      skip_value Hn1. apply search_hit. apply experience_re_at. }
    assert (Hsum : search summary_re (Claims.forward_response n b s) = Some s).
    { unfold Claims.forward_response, summary_re. skip_fixed.
      skip_value Hn1. destruct b; skip_fixed; apply search_hit;
        rewrite Es; apply (summary_re_at cs ws Hcs). }
    unfold parse_response. rewrite Hname, Hexp, Hsum. destruct b; reflexivity.
  - assert (Hname : search name_re (Claims.reverse_response n b s) = Some n).
    { unfold Claims.reverse_response, name_re. skip_fixed.
      skip_value Hs1. destruct b; skip_fixed; apply search_hit;
        rewrite <- (append_empty_r n) at 1;
        apply (name_re_at n "" Hn); left; reflexivity. }
    assert (Hexp : search experience_re (Claims.reverse_response n b s)
                   = Some (Claims.answer b)).
    { unfold Claims.reverse_response, experience_re. skip_fixed.
      skip_value Hs1. apply search_hit. apply experience_re_at. }
    assert (Hsum : search summary_re (Claims.reverse_response n b s)
                   = Some (s ++ Log.nl ++ "EXPERIENCE: " ++ Claims.answer b
                           ++ Log.nl ++ "NAME: " ++ n)).
    { apply search_hit. unfold Claims.reverse_response. rewrite Es at 1 2.
      cbn [append]. apply (summary_re_at cs _ Hcs). }
    unfold parse_response. rewrite Hname, Hexp, Hsum. destruct b; reflexivity.
Qed.

Lemma reverse_order_verdict_witness :
  parse_response (Claims.forward_response "Jane Doe" true "Built a surgical robot")
  = Verdict (PyBool true) "Jane Doe" "Built a surgical robot"
  /\ parse_response (Claims.reverse_response "Jane Doe" true "Built a surgical robot")
     = Verdict (PyBool true) "Jane Doe"
         ("Built a surgical robot" ++ Log.nl ++ "EXPERIENCE: YES"
          ++ Log.nl ++ "NAME: Jane Doe").
Proof.
  exact (reverse_order_verdict "Jane Doe" true "Built a surgical robot"
           eq_refl eq_refl).
Defined.

(** C4 (as stated, refuted): the two orders give different summaries. *)
Lemma order_independent_counterexample :
  ~ Claims.order_independent_claim "Jane Doe" true "Built a surgical robot".
Proof.
  unfold Claims.order_independent_claim. intros H.
  apply (f_equal (fun v => String.length (summary v))) in H.
  vm_compute in H. discriminate H.
Qed.

End OrderFacts.

(** ** Words, stripping and joining *)

Section WordFacts.
Import Aux.

Lemma word_inv w :
  word w = true ->
  exists c r, w = String c r /\ Chr.isspace c = false /\ all_chars visible r = true.
Proof.
  unfold word. destruct w as [|c r]; [discriminate|]. cbn [Str.is_empty negb andb all_chars].
  intros H. apply andb_prop in H as [Hc Hr]. apply negb_true_iff in Hc. eauto.
Qed.

Lemma cons_word_visible c w ws :
  Str.cons_word (String c w) ws = String c w :: ws.
Proof. reflexivity. Qed.

Lemma words_from_space c s :
  Chr.isspace c = true ->
  Str.words_from (String c s) = ("", Str.split_ws s).
Proof.
  intros H. unfold Str.split_ws. cbn [Str.words_from].
  destruct (Str.words_from s). rewrite H. reflexivity.
Qed.

Lemma words_from_visible c s :
  Chr.isspace c = false ->
  Str.words_from (String c s)
  = (String c (fst (Str.words_from s)), snd (Str.words_from s)).
Proof.
  intros H. cbn [Str.words_from]. destruct (Str.words_from s). rewrite H. reflexivity.
Qed.

Lemma split_ws_space c s :
  Chr.isspace c = true -> Str.split_ws (String c s) = Str.split_ws s.
Proof.
  intros H. unfold Str.split_ws at 1. rewrite (words_from_space _ _ H). reflexivity.
Qed.

Lemma split_ws_visible c s :
  Chr.isspace c = false ->
  Str.split_ws (String c s)
  = String c (fst (Str.words_from s)) :: snd (Str.words_from s).
Proof.
  intros H. unfold Str.split_ws. rewrite (words_from_visible _ _ H). reflexivity.
Qed.

Lemma split_ws_eq s :
  Str.split_ws s = Str.cons_word (fst (Str.words_from s)) (snd (Str.words_from s)).
Proof. unfold Str.split_ws. destruct (Str.words_from s). reflexivity. Qed.

(** A run of visible characters extends the word that follows it. *)
Lemma words_from_run w s :
  all_chars visible w = true ->
  Str.words_from (w ++ s)
  = (w ++ fst (Str.words_from s), snd (Str.words_from s)).
Proof.
  induction w as [|c w IH]; intros H.
  - cbn [append]. destruct (Str.words_from s). reflexivity.
  - cbn [all_chars] in H. apply andb_prop in H as [Hc H].
    apply negb_true_iff in Hc. cbn [append].
    rewrite (words_from_visible _ _ Hc), (IH H). reflexivity.
Qed.

Lemma words_from_join chunk :
  Forall (fun w => word w = true) chunk ->
  Str.words_from (Str.join " " chunk)
  = match chunk with
    | [] => ("", [])
    | w :: rest => (w, rest)
    end.
Proof.
  induction 1 as [|w rest Hw Hrest IH]; [reflexivity|].
  destruct (word_inv _ Hw) as [c [r [-> [Hc Hr]]]].
  assert (Hall : all_chars visible (String c r) = true).
  { cbn [all_chars]. unfold visible at 1. rewrite Hc, Hr. reflexivity. }
  destruct rest as [|w' rest'].
  - cbn [Str.join]. rewrite <- (append_empty_r (String c r)) at 1.
    rewrite (words_from_run _ _ Hall). cbn. rewrite append_empty_r. reflexivity.
  - change (Str.join " " (String c r :: w' :: rest'))
      with (String c r ++ String " " (Str.join " " (w' :: rest'))).
    rewrite (words_from_run _ _ Hall).
    rewrite words_from_space by reflexivity.
    rewrite split_ws_eq, IH. cbn [fst snd].
    inversion Hrest as [|? ? Hw' _]; subst.
    destruct (word_inv _ Hw') as [c' [r' [-> _]]].
    rewrite cons_word_visible, append_empty_r. reflexivity.
Qed.

(** [split] undoes [join] on words. *)
Lemma split_ws_join chunk :
  Forall (fun w => word w = true) chunk ->
  Str.split_ws (Str.join " " chunk) = chunk.
Proof.
  intros H. rewrite split_ws_eq, (words_from_join _ H).
  destruct chunk as [|w rest]; [reflexivity|]. cbn [fst snd].
  inversion H as [|? ? Hw _]; subst.
  destruct (word_inv _ Hw) as [c [r [-> _]]]. reflexivity.
Qed.

Lemma words_from_valid s :
  all_chars visible (fst (Str.words_from s)) = true
  /\ Forall (fun w => word w = true) (snd (Str.words_from s)).
Proof.
  induction s as [|c s [IH1 IH2]]; [split; [reflexivity | constructor]|].
  destruct (Chr.isspace c) eqn:Hc.
  - rewrite (words_from_space _ _ Hc). cbn [fst snd]. split; [reflexivity|].
    rewrite split_ws_eq. unfold Str.cons_word.
    destruct (fst (Str.words_from s)) as [|d w] eqn:E; cbn [Str.is_empty]; [exact IH2|].
    constructor; [|exact IH2]. unfold word. cbn [Str.is_empty negb andb]. exact IH1.
  - rewrite (words_from_visible _ _ Hc). cbn [fst snd]. split; [|exact IH2].
    cbn [all_chars]. unfold visible at 1. rewrite Hc, IH1. reflexivity.
Qed.

(** [split] returns words. *)
Lemma split_ws_valid s : Forall (fun w => word w = true) (Str.split_ws s).
Proof.
  destruct (words_from_valid s) as [H1 H2].
  rewrite split_ws_eq. unfold Str.cons_word.
  destruct (fst (Str.words_from s)) as [|d w] eqn:E; cbn [Str.is_empty]; [exact H2|].
  constructor; [|exact H2]. unfold word. cbn [Str.is_empty negb andb]. exact H1.
Qed.

Lemma split_ws_lstrip s : Str.split_ws (Str.lstrip s) = Str.split_ws s.
Proof.
  induction s as [|c s IH]; [reflexivity|]. cbn [Str.lstrip].
  destruct (Chr.isspace c) eqn:Hc; [|reflexivity].
  rewrite IH, (split_ws_space _ _ Hc). reflexivity.
Qed.

Lemma words_from_rstrip s : Str.words_from (Str.rstrip s) = Str.words_from s.
Proof.
  induction s as [|c s IH]; [reflexivity|]. cbn [Str.rstrip].
  destruct (Chr.isspace c) eqn:Hc; cbn [andb].
  - destruct (Str.is_empty (Str.rstrip s)) eqn:He.
    + rewrite (words_from_space _ _ Hc), split_ws_eq, <- IH.
      destruct (Str.rstrip s); [reflexivity | discriminate].
    + rewrite !(words_from_space _ _ Hc), !split_ws_eq, IH. reflexivity.
  - rewrite !(words_from_visible _ _ Hc), IH. reflexivity.
Qed.

Lemma split_ws_strip s : Str.split_ws (Str.strip s) = Str.split_ws s.
Proof.
  unfold Str.strip. rewrite split_ws_eq, words_from_rstrip, <- split_ws_eq.
  apply split_ws_lstrip.
Qed.

Lemma lstrip_cases s :
  Str.lstrip s = "" \/ exists c r, Str.lstrip s = String c r /\ Chr.isspace c = false.
Proof.
  induction s as [|c s IH]; [left; reflexivity|]. cbn [Str.lstrip].
  destruct (Chr.isspace c) eqn:Hc; [exact IH|]. right. eauto.
Qed.

Lemma rstrip_visible c r :
  Chr.isspace c = false -> Str.rstrip (String c r) = String c (Str.rstrip r).
Proof. intros H. cbn [Str.rstrip]. rewrite H. reflexivity. Qed.

Lemma strip_visible c r :
  Chr.isspace c = false -> Str.strip (String c r) = String c (Str.rstrip r).
Proof.
  intros H. unfold Str.strip. cbn [Str.lstrip]. rewrite H. apply rstrip_visible, H.
Qed.

Lemma strip_cases s :
  Str.strip s = "" \/ exists c r, Str.strip s = String c r /\ Chr.isspace c = false.
Proof.
  unfold Str.strip. destruct (lstrip_cases s) as [-> | [c [r [-> Hc]]]].
  - left. reflexivity.
  - right. rewrite (rstrip_visible _ _ Hc). eauto.
Qed.

Lemma blank_no_words s :
  Str.is_empty (Str.strip s) = true -> Str.split_ws s = [].
Proof.
  intros H. rewrite <- split_ws_strip.
  destruct (Str.strip s); [reflexivity | discriminate].
Qed.

Lemma visible_has_words s :
  Str.is_empty (Str.strip s) = false -> Str.split_ws s <> [].
Proof.
  intros H. rewrite <- split_ws_strip.
  destruct (strip_cases s) as [E | [c [r [E Hc]]]]; rewrite E in *; [discriminate|].
  rewrite (split_ws_visible _ _ Hc). discriminate.
Qed.

Lemma rstrip_run w : all_chars visible w = true -> Str.rstrip w = w.
Proof.
  induction w as [|c w IH]; intros H; [reflexivity|].
  cbn [all_chars] in H. apply andb_prop in H as [Hc H]. apply negb_true_iff in Hc.
  rewrite (rstrip_visible _ _ Hc), (IH H). reflexivity.
Qed.

Lemma is_empty_app a b : Str.is_empty (a ++ b) = Str.is_empty a && Str.is_empty b.
Proof. destruct a; reflexivity. Qed.

(** Nothing is stripped from the right of a text that closes with a
    word. *)
Lemma rstrip_ends_with_word a w : word w = true -> Str.rstrip (a ++ w) = a ++ w.
Proof.
  intros Hw. destruct (word_inv _ Hw) as [c [r [-> [Hc Hr]]]].
  induction a as [|d a IH].
  - cbn [append]. rewrite (rstrip_visible _ _ Hc), (rstrip_run _ Hr). reflexivity.
  - cbn [append Str.rstrip]. rewrite IH, is_empty_app.
    cbn [Str.is_empty]. rewrite !andb_false_r. reflexivity.
Qed.

Lemma join_ends_with_word chunk :
  chunk <> [] -> Forall (fun w => word w = true) chunk ->
  exists a w, Str.join " " chunk = a ++ w /\ word w = true.
Proof.
  intros Hne H. induction H as [|w rest Hw Hrest IH]; [congruence|].
  destruct rest as [|w' rest'].
  - exists "", w. auto.
  - destruct IH as [a [v [E Hv]]]; [discriminate|].
    exists (w ++ " " ++ a), v. split; [|exact Hv].
    change (Str.join " " (w :: w' :: rest'))
      with (w ++ " " ++ Str.join " " (w' :: rest')).
    rewrite E, !append_assoc. reflexivity.
Qed.

Lemma join_opens_visible chunk :
  chunk <> [] -> Forall (fun w => word w = true) chunk ->
  exists c r, Str.join " " chunk = String c r /\ Chr.isspace c = false.
Proof.
  intros Hne H. destruct H as [|w rest Hw Hrest]; [congruence|].
  destruct (word_inv _ Hw) as [c [r [-> [Hc _]]]].
  destruct rest; cbn [Str.join append]; eauto.
Qed.

(** A line made of words joined by single blanks is its own strip. *)
Lemma strip_join chunk :
  chunk <> [] -> Forall (fun w => word w = true) chunk ->
  Str.strip (Str.join " " chunk) = Str.join " " chunk.
Proof.
  intros Hne H.
  destruct (join_opens_visible _ Hne H) as [c [r [E Hc]]].
  destruct (join_ends_with_word _ Hne H) as [a [w [E' Hw]]].
  unfold Str.strip. rewrite E. cbn [Str.lstrip]. rewrite Hc, <- E, E'.
  apply rstrip_ends_with_word, Hw.
Qed.

Lemma split_ws_after_run h s :
  all_chars visible h = true ->
  List.length (Str.split_ws s) <= List.length (Str.split_ws (h ++ s)).
Proof.
  induction h as [|c h IH]; intros H; [apply Nat.le_refl|].
  cbn [all_chars] in H. apply andb_prop in H as [Hc H]. apply negb_true_iff in Hc.
  etransitivity; [apply (IH H)|]. cbn [append].
  rewrite (split_ws_visible _ _ Hc), split_ws_eq. unfold Str.cons_word.
  destruct (Str.is_empty (fst (Str.words_from (h ++ s)))); cbn [List.length]; lia.
Qed.

Lemma startswith_split s p :
  Str.startswith s p = true -> exists r, s = p ++ r.
Proof.
  revert s. induction p as [|a p IH]; intros s H; [exists s; reflexivity|].
  destruct s as [|c s]; [discriminate|]. cbn [Str.startswith] in H.
  apply andb_prop in H as [Hc H]. apply Ascii.eqb_eq in Hc. subst c.
  destruct (IH _ H) as [r ->]. exists r. reflexivity.
Qed.

Lemma visible_not_newline c : visible c = true -> Ascii.eqb c Chr.newline = false.
Proof.
  intros H. destruct (Ascii.eqb c Chr.newline) eqn:E; [|reflexivity].
  apply Ascii.eqb_eq in E. subst c. discriminate H.
Qed.

Lemma run_one_line w : all_chars visible w = true -> one_line w.
Proof.
  unfold one_line. induction w as [|c w IH]; intros H; [reflexivity|].
  cbn [all_chars] in H. apply andb_prop in H as [Hc H].
  cbn [Str.contains_chr]. rewrite (visible_not_newline _ Hc), (IH H). reflexivity.
Qed.

Lemma join_one_line chunk :
  Forall (fun w => word w = true) chunk -> one_line (Str.join " " chunk).
Proof.
  unfold one_line. induction 1 as [|w rest Hw Hrest IH]; [reflexivity|].
  assert (Hone : Str.contains_chr Chr.newline w = false).
  { apply run_one_line. unfold word in Hw. apply andb_prop in Hw as [_ Hw]. exact Hw. }
  destruct rest as [|w' rest']; [exact Hone|].
  change (Str.join " " (w :: w' :: rest'))
    with (w ++ " " ++ Str.join " " (w' :: rest')).
  rewrite !contains_chr_app, Hone, IH. reflexivity.
Qed.

End WordFacts.

(** ** The word loop *)

Section WrapFacts.
Import Aux Formatter.

Lemma wrap_loop_small n ws :
  forall cur out,
    small n (cur ++ ws)%list ->
    wrap_loop n ws cur out = ((cur ++ ws)%list, out)
    \/ wrap_loop n ws cur out
       = ([], (out ++ [Str.join " " (cur ++ ws)%list])%list).
Proof.
  induction ws as [|w ws IH]; intros cur out Hs.
  - left. rewrite app_nil_r. reflexivity.
  - cbn [wrap_loop].
    assert (Hlen : List.length (cur ++ w :: ws)%list
                   = List.length (cur ++ [w])%list + List.length ws).
    { rewrite !length_app. cbn. lia. }
    destruct (Z.of_nat (List.length (cur ++ [w])%list) >=? n)%Z eqn:E.
    + assert (ws = []).
      { assert (Hpos : 1 <= List.length (cur ++ [w])%list)
          by (rewrite length_app; cbn; lia).
        destruct ws as [|w' ws']; [reflexivity|]. exfalso.
        cbn [List.length] in Hlen. destruct Hs as [Hs|Hs]; lia. }
      subst ws. right. reflexivity.
    + replace (cur ++ w :: ws)%list with ((cur ++ [w]) ++ ws)%list
        by (rewrite <- app_assoc; reflexivity).
      apply IH. rewrite <- app_assoc. exact Hs.
Qed.

(** A small list of words comes back as one line. *)
Lemma wrap_small n chunk :
  chunk <> [] -> small n chunk -> wrap n chunk = [Str.join " " chunk].
Proof.
  intros Hne Hs. unfold wrap.
  destruct (wrap_loop_small n chunk [] [] Hs) as [E|E]; rewrite E; cbn [app].
  - destruct chunk; [congruence | reflexivity].
  - reflexivity.
Qed.

Lemma wrap_loop_chunks n words :
  Forall (fun w => word w = true) words ->
  forall cur out,
    Forall (fun w => word w = true) cur ->
    (cur = [] \/ (Z.of_nat (List.length cur) < n)%Z) ->
    Forall (chunk_line n) out ->
    Forall (fun w => word w = true) (fst (wrap_loop n words cur out))
    /\ (fst (wrap_loop n words cur out) = []
        \/ (Z.of_nat (List.length (fst (wrap_loop n words cur out))) < n)%Z)
    /\ Forall (chunk_line n) (snd (wrap_loop n words cur out)).
Proof.
  induction 1 as [|w words Hw Hwords IH]; intros cur out Hcur Hlen Hout.
  - cbn [wrap_loop fst snd]. auto.
  - cbn [wrap_loop].
    assert (Hcur1 : Forall (fun w => word w = true) (cur ++ [w])%list)
      by (apply Forall_app; auto).
    destruct (Z.of_nat (List.length (cur ++ [w])%list) >=? n)%Z eqn:E.
    + apply IH; [constructor | left; reflexivity|].
      apply Forall_app. split; [exact Hout|]. constructor; [|constructor].
      exists (cur ++ [w])%list. repeat split.
      * destruct cur; discriminate.
      * exact Hcur1.
      * unfold small. rewrite length_app. cbn [List.length].
        destruct Hlen as [-> | Hlen]; [right; cbn; lia | left; lia].
    + apply IH; [exact Hcur1 | right; lia | exact Hout].
Qed.

(** Every line the word loop makes is a small list of words, joined. *)
Lemma wrap_chunks n words :
  Forall (fun w => word w = true) words -> Forall (chunk_line n) (wrap n words).
Proof.
  intros H. unfold wrap.
  destruct (wrap_loop_chunks n words H [] []) as [H1 [H2 H3]];
    [constructor | left; reflexivity | constructor |].
  destruct (wrap_loop n words [] []) as [cur out]. cbn [fst snd] in *.
  destruct cur as [|w cur]; [exact H3|].
  apply Forall_app. split; [exact H3|]. constructor; [|constructor].
  exists (w :: cur). repeat split; [discriminate | exact H1|].
  destruct H2 as [H2|H2]; [discriminate | left; lia].
Qed.

Lemma wrap_loop_progress n words :
  forall cur out,
    words <> [] \/ cur <> [] \/ out <> [] ->
    fst (wrap_loop n words cur out) <> [] \/ snd (wrap_loop n words cur out) <> [].
Proof.
  induction words as [|w words IH]; intros cur out H.
  - cbn [wrap_loop fst snd]. destruct H as [H|H]; [congruence | exact H].
  - cbn [wrap_loop].
    destruct (Z.of_nat (List.length (cur ++ [w])%list) >=? n)%Z.
    + apply IH. right. right. destruct out; discriminate.
    + apply IH. right. left. destruct cur; discriminate.
Qed.

Lemma wrap_nonempty n words : words <> [] -> wrap n words <> [].
Proof.
  intros H. unfold wrap.
  pose proof (wrap_loop_progress n words [] [] (or_introl H)) as Hp.
  destruct (wrap_loop n words [] []) as [cur out]. cbn [fst snd] in Hp.
  destruct cur as [|w cur].
  - destruct Hp; congruence.
  - destruct out; discriminate.
Qed.

Lemma wrap_nil n : wrap n [] = [].
Proof. reflexivity. Qed.

End WrapFacts.

(** ** One line of the formatter *)

Section LineFacts.
Import Aux Formatter.

Lemma strip_space c s : Chr.isspace c = true -> Str.strip (String c s) = Str.strip s.
Proof. intros H. unfold Str.strip. cbn [Str.lstrip]. rewrite H. reflexivity. Qed.

Lemma labelled_is_header hp rest :
  In hp header_parts -> is_header (hp ++ ":" ++ rest) = true.
Proof.
  intros [<-|[<-|[<-|[<-|[]]]]]; unfold is_header, headers;
    cbn [append existsb Str.startswith]; rewrite startswith_empty; reflexivity.
Qed.

(** The lines a labelled line contributes. *)
Lemma format_line_labelled n hp rest :
  In hp header_parts ->
  format_line n (hp ++ ":" ++ rest)
  = if negb (Str.is_empty (Str.strip rest)) then
      match wrap n (Str.split_ws (Str.strip rest)) with
      | first :: others => (hp ++ ": " ++ first) :: others
      | [] => [hp ++ ":" ++ rest]
      end
    else [hp ++ ":" ++ rest].
Proof.
  intros Hhp. unfold format_line. rewrite (labelled_is_header hp rest Hhp).
  destruct Hhp as [<-|[<-|[<-|[<-|[]]]]]; cbn [append];
    rewrite strip_visible by reflexivity; reflexivity.
Qed.

Lemma format_line_plain n l :
  is_header l = false ->
  format_line n l
  = if Str.is_empty (Str.strip l) || Str.startswith (Str.strip l) "===="
    then [l]
    else if (Z.of_nat (List.length (Str.split_ws l)) >? n)%Z
         then wrap n (Str.split_ws l)
         else [l].
Proof. intros H. unfold format_line. rewrite H. reflexivity. Qed.

Lemma is_header_inv l :
  is_header l = true ->
  exists hp rest, In hp header_parts /\ l = hp ++ ":" ++ rest.
Proof.
  unfold is_header, headers, header_parts. cbn [existsb]. intros H.
  apply orb_prop in H as [H|H]; [|apply orb_prop in H as [H|H];
    [|apply orb_prop in H as [H|H]; [|apply orb_prop in H as [H|H];
      [|discriminate H]]]];
    apply startswith_split in H as [r ->].
  - exists "Date", r. cbn [In]. auto.
  - exists "Name", r. cbn [In]. auto.
  - exists "URL", r. cbn [In]. auto.
  - exists "Reason", r. cbn [In]. auto 6.
Qed.

Lemma header_part_visible hp :
  In hp header_parts -> all_chars visible (hp ++ ":") = true.
Proof. intros [<-|[<-|[<-|[<-|[]]]]]; reflexivity. Qed.

Lemma header_part_one_line hp : In hp header_parts -> one_line (hp ++ ": ").
Proof. intros [<-|[<-|[<-|[<-|[]]]]]; reflexivity. Qed.

(** A header line that carries a small list of words is reproduced. *)
Lemma header_line_stable n hp chunk :
  In hp header_parts -> chunk <> [] ->
  Forall (fun w => word w = true) chunk -> small n chunk ->
  stable n (hp ++ ": " ++ Str.join " " chunk).
Proof.
  intros Hhp Hne Hw Hs. unfold stable.
  change (hp ++ ": " ++ Str.join " " chunk)
    with (hp ++ ":" ++ String " " (Str.join " " chunk)).
  rewrite (format_line_labelled _ _ _ Hhp).
  rewrite strip_space by reflexivity.
  rewrite (strip_join _ Hne Hw).
  destruct (join_opens_visible _ Hne Hw) as [c [r [E _]]].
  rewrite E at 1. cbn [Str.is_empty negb].
  rewrite (split_ws_join _ Hw), (wrap_small _ _ Hne Hs). reflexivity.
Qed.

Lemma stable_settled n l : stable n l -> settled n l.
Proof. intros H. unfold settled. rewrite H. constructor; [exact H | constructor]. Qed.

Lemma small_shorter n a b :
  List.length a <= List.length b -> small n b -> small n a.
Proof. unfold small. intros H [Hb|Hb]; [left | right]; lia. Qed.

(** A line made by the word loop is reproduced, or turned into a header
    line that is. *)
Lemma chunk_line_settled n l : chunk_line n l -> settled n l.
Proof.
  intros [chunk [-> [Hne [Hw Hs]]]].
  set (J := Str.join " " chunk).
  destruct (is_header J) eqn:Hh.
  - destruct (is_header_inv _ Hh) as [hp [rest [Hhp E]]].
    pose proof (format_line_labelled n hp rest Hhp) as F. rewrite <- E in F.
    destruct (negb (Str.is_empty (Str.strip rest))).
    + destruct (wrap n (Str.split_ws (Str.strip rest))) as [|first others] eqn:Ew.
      * apply stable_settled, F.
      * assert (Hne' : Str.split_ws (Str.strip rest) <> [])
          by (intros E0; rewrite E0, wrap_nil in Ew; discriminate).
        assert (Hs' : small n (Str.split_ws (Str.strip rest))).
        { apply (small_shorter n _ chunk); [|exact Hs].
          rewrite split_ws_strip.
          replace (List.length chunk) with (List.length (Str.split_ws J))
            by (unfold J; rewrite (split_ws_join _ Hw); reflexivity).
          rewrite E.
          rewrite <- append_assoc.
          apply split_ws_after_run, header_part_visible, Hhp. }
        rewrite (wrap_small _ _ Hne' Hs') in Ew. injection Ew as <- <-.
        unfold settled. rewrite F. constructor; [|constructor].
        apply header_line_stable; auto. apply split_ws_valid.
    + apply stable_settled, F.
  - apply stable_settled. unfold stable.
    rewrite (format_line_plain _ _ Hh). unfold J.
    rewrite (strip_join _ Hne Hw), (split_ws_join _ Hw). fold J.
    destruct (Str.is_empty J || Str.startswith J "===="); [reflexivity|].
    destruct (Z.of_nat (List.length chunk) >? n)%Z; [|reflexivity].
    apply (wrap_small _ _ Hne Hs).
Qed.

(** Every line the formatter writes is settled: one more run makes it
    stable. *)
Lemma format_line_settled n l : Forall (settled n) (format_line n l).
Proof.
  destruct (is_header l) eqn:Hh.
  - destruct (is_header_inv _ Hh) as [hp [rest [Hhp E]]].
    pose proof (format_line_labelled n hp rest Hhp) as F. rewrite <- E in F.
    destruct (negb (Str.is_empty (Str.strip rest))).
    + pose proof (wrap_chunks n _ (split_ws_valid (Str.strip rest))) as Hc.
      destruct (wrap n (Str.split_ws (Str.strip rest))) as [|first others].
      * rewrite F. constructor; [apply stable_settled, F | constructor].
      * rewrite F. inversion Hc as [|? ? Hfirst Hothers]; subst.
        constructor.
        -- destruct Hfirst as [chunk [-> [Hne [Hw Hs]]]].
           apply stable_settled, header_line_stable; auto.
        -- eapply Forall_impl; [|exact Hothers].
           intros x. apply chunk_line_settled.
    + rewrite F. constructor; [apply stable_settled, F | constructor].
  - pose proof (format_line_plain n l Hh) as F.
    destruct (Str.is_empty (Str.strip l) || Str.startswith (Str.strip l) "====").
    + rewrite F. constructor; [apply stable_settled, F | constructor].
    + destruct (Z.of_nat (List.length (Str.split_ws l)) >? n)%Z.
      * rewrite F. eapply Forall_impl; [|apply wrap_chunks, split_ws_valid].
        intros x. apply chunk_line_settled.
      * rewrite F. constructor; [apply stable_settled, F | constructor].
Qed.

Lemma format_line_nonempty n l : format_line n l <> [].
Proof.
  destruct (is_header l) eqn:Hh.
  - destruct (is_header_inv _ Hh) as [hp [rest [Hhp ->]]].
    rewrite (format_line_labelled _ _ _ Hhp).
    destruct (negb (Str.is_empty (Str.strip rest))); [|discriminate].
    destruct (wrap n (Str.split_ws (Str.strip rest))); discriminate.
  - rewrite (format_line_plain _ _ Hh).
    destruct (Str.is_empty (Str.strip l)) eqn:He; cbn [orb]; [discriminate|].
    destruct (Str.startswith (Str.strip l) "===="); [discriminate|].
    destruct (Z.of_nat (List.length (Str.split_ws l)) >? n)%Z; [|discriminate].
    apply wrap_nonempty, visible_has_words, He.
Qed.

Lemma chunk_line_one_line n l : chunk_line n l -> one_line l.
Proof. intros [chunk [-> [_ [Hw _]]]]. apply join_one_line, Hw. Qed.

Lemma format_line_one_line n l :
  one_line l -> Forall one_line (format_line n l).
Proof.
  intros Hl. destruct (is_header l) eqn:Hh.
  - destruct (is_header_inv _ Hh) as [hp [rest [Hhp E]]].
    pose proof (format_line_labelled n hp rest Hhp) as F. rewrite <- E in F.
    rewrite F.
    destruct (negb (Str.is_empty (Str.strip rest))); [|constructor; auto].
    pose proof (wrap_chunks n _ (split_ws_valid (Str.strip rest))) as Hc.
    destruct (wrap n (Str.split_ws (Str.strip rest))) as [|first others];
      [constructor; auto|].
    inversion Hc as [|? ? Hfirst Hothers]; subst. constructor.
    + unfold one_line. rewrite <- append_assoc, contains_chr_app.
      rewrite (header_part_one_line _ Hhp), (chunk_line_one_line _ _ Hfirst).
      reflexivity.
    + eapply Forall_impl; [|exact Hothers]. intros x. apply chunk_line_one_line.
  - rewrite (format_line_plain _ _ Hh).
    destruct (Str.is_empty (Str.strip l) || Str.startswith (Str.strip l) "====");
      [constructor; auto|].
    destruct (Z.of_nat (List.length (Str.split_ws l)) >? n)%Z; [|constructor; auto].
    eapply Forall_impl; [|apply wrap_chunks, split_ws_valid].
    intros x. apply chunk_line_one_line.
Qed.

(** With a setting of at least one word, a stable line that is neither
    a header nor kept as a separator has at most that many words. *)
Lemma stable_word_count n l :
  (1 <= n)%Z -> stable n l -> is_header l = false ->
  Str.startswith (Str.strip l) "====" = false ->
  (Z.of_nat (List.length (Str.split_ws l)) <= n)%Z.
Proof.
  intros Hn Hst Hh Hsep. unfold stable in Hst.
  rewrite (format_line_plain _ _ Hh), Hsep, orb_false_r in Hst.
  destruct (Str.is_empty (Str.strip l)) eqn:He.
  - rewrite (blank_no_words _ He). cbn. lia.
  - destruct (Z.of_nat (List.length (Str.split_ws l)) >? n)%Z eqn:E; [|lia].
    pose proof (wrap_chunks n _ (split_ws_valid l)) as Hc. rewrite Hst in Hc.
    inversion Hc as [|? ? [chunk [-> [_ [Hw Hs]]]] _]; subst.
    rewrite (split_ws_join _ Hw). destruct Hs as [Hs|Hs]; lia.
Qed.

End LineFacts.

(** ** The whole text *)

Section TextFacts.
Import Aux Formatter.

Lemma fold_left_flat_map {X Y} (f : X -> list Y) ls :
  forall acc,
    fold_left (fun acc x => (acc ++ f x)%list) ls acc = (acc ++ flat_map f ls)%list.
Proof.
  induction ls as [|x ls IH]; intros acc; cbn [fold_left flat_map].
  - rewrite app_nil_r. reflexivity.
  - rewrite IH, app_assoc. reflexivity.
Qed.

Lemma format_eq n t :
  Claims.format n t
  = Str.join Log.nl (flat_map (format_line n) (Claims.lines_of t)).
Proof.
  unfold Claims.format, format_text_with_line_breaks, Claims.lines_of.
  rewrite fold_left_flat_map. reflexivity.
Qed.

Lemma split_chr_nonempty sep s : Str.split_chr sep s <> [].
Proof.
  destruct s as [|c s]; cbn [Str.split_chr]; [discriminate|].
  destruct (Ascii.eqb c sep); [discriminate|].
  destruct (Str.split_chr sep s); discriminate.
Qed.

Lemma split_chr_one_line s : Forall one_line (Str.split_chr Chr.newline s).
Proof.
  induction s as [|c s IH]; cbn [Str.split_chr].
  - constructor; [reflexivity | constructor].
  - destruct (Ascii.eqb c Chr.newline) eqn:Hc.
    + constructor; [reflexivity | exact IH].
    + destruct (Str.split_chr Chr.newline s) as [|l ls].
      * constructor; [|constructor]. unfold one_line. cbn [Str.contains_chr].
        rewrite Hc. reflexivity.
      * inversion IH as [|? ? Hl Hls]; subst. constructor; [|exact Hls].
        unfold one_line in *. cbn [Str.contains_chr]. rewrite Hc, Hl. reflexivity.
Qed.

Lemma split_chr_single x : one_line x -> Str.split_chr Chr.newline x = [x].
Proof.
  unfold one_line. induction x as [|c x IH]; intros H; [reflexivity|].
  cbn [Str.contains_chr] in H. apply orb_false_elim in H as [Hc H].
  cbn [Str.split_chr]. rewrite Hc, (IH H). reflexivity.
Qed.

Lemma split_chr_line x rest :
  one_line x ->
  Str.split_chr Chr.newline (x ++ String Chr.newline rest)
  = x :: Str.split_chr Chr.newline rest.
Proof.
  unfold one_line. induction x as [|c x IH]; intros H; [reflexivity|].
  cbn [Str.contains_chr] in H. apply orb_false_elim in H as [Hc H].
  cbn [append Str.split_chr]. rewrite Hc, (IH H). reflexivity.
Qed.

(** Splitting at the line feeds undoes the joining of lines that hold
    none. *)
Lemma split_join ls :
  ls <> [] -> Forall one_line ls ->
  Str.split_chr Chr.newline (Str.join Log.nl ls) = ls.
Proof.
  intros Hne H. induction H as [|x ls Hx Hls IH]; [congruence|].
  destruct ls as [|y ls].
  - apply split_chr_single, Hx.
  - change (Str.join Log.nl (x :: y :: ls))
      with (x ++ String Chr.newline (Str.join Log.nl (y :: ls))).
    rewrite (split_chr_line _ _ Hx), IH by discriminate. reflexivity.
Qed.

Lemma flat_map_nonempty n ls : ls <> [] -> flat_map (format_line n) ls <> [].
Proof.
  destruct ls as [|l ls]; [congruence|]. intros _. cbn [flat_map].
  pose proof (format_line_nonempty n l) as H.
  destruct (format_line n l); [congruence | discriminate].
Qed.

Lemma flat_map_one_line n ls :
  Forall one_line ls -> Forall one_line (flat_map (format_line n) ls).
Proof.
  intros H. apply Forall_flat_map. eapply Forall_impl; [|exact H].
  intros l. apply format_line_one_line.
Qed.

Lemma lines_of_format n t :
  Claims.lines_of (Claims.format n t)
  = flat_map (format_line n) (Claims.lines_of t).
Proof.
  rewrite format_eq. unfold Claims.lines_of. apply split_join.
  - apply flat_map_nonempty, split_chr_nonempty.
  - apply flat_map_one_line, split_chr_one_line.
Qed.

Lemma flat_map_stable n ls :
  Forall (stable n) ls -> flat_map (format_line n) ls = ls.
Proof.
  induction 1 as [|l ls Hl Hls IH]; [reflexivity|].
  cbn [flat_map]. rewrite Hl, IH. reflexivity.
Qed.

Lemma flat_map_settled n ls :
  Forall (settled n) ls ->
  Forall (stable n) (flat_map (format_line n) ls)
  /\ flat_map (format_line n) (flat_map (format_line n) ls)
     = flat_map (format_line n) ls.
Proof.
  induction 1 as [|l ls Hl Hls [IH1 IH2]]; [split; [constructor | reflexivity]|].
  cbn [flat_map]. split.
  - apply Forall_app. split; [exact Hl | exact IH1].
  - rewrite flat_map_app, IH2, (flat_map_stable _ _ Hl). reflexivity.
Qed.

Lemma first_run_settled n ls : Forall (settled n) (flat_map (format_line n) ls).
Proof.
  apply Forall_flat_map. apply Forall_forall. intros l _.
  apply format_line_settled.
Qed.

(** C9 (as amended): for every text and every setting, a third run of
    the formatter returns the result of the second; and when the
    setting is at least one word, after two runs every line that is
    neither a header line nor a line kept as a separator (its stripped
    text opens with four ['=']) has at most that many words. *)
Theorem formatter_fixed_point :
  forall t n,
    Claims.format n (Claims.format n (Claims.format n t))
    = Claims.format n (Claims.format n t)
    /\ ((1 <= n)%Z ->
        forall line,
          In line (Claims.lines_of (Claims.format n (Claims.format n t))) ->
          is_header line = false ->
          Str.startswith (Str.strip line) "====" = false ->
          (Z.of_nat (Claims.word_count line) <= n)%Z).
Proof.
  intros t n.
  pose proof (first_run_settled n (Claims.lines_of t)) as H1.
  destruct (flat_map_settled n _ H1) as [Hst Hfix].
  split.
  - rewrite (format_eq n (Claims.format n (Claims.format n t))).
    rewrite !lines_of_format, Hfix.
    rewrite (format_eq n (Claims.format n t)), lines_of_format. reflexivity.
  - intros Hn line Hin Hh Hsep. rewrite !lines_of_format in Hin.
    apply (stable_word_count n line Hn); [|exact Hh | exact Hsep].
    exact (proj1 (Forall_forall _ _) Hst line Hin).
Qed.

Lemma formatter_fixed_point_witness :
  Claims.format 2 (Claims.format 2
     (Claims.format 2 "Reason: one two three four five"))
  = Claims.format 2 (Claims.format 2 "Reason: one two three four five")
  /\ (Z.of_nat (Claims.word_count "three four") <= 2)%Z.
Proof.
  destruct (formatter_fixed_point "Reason: one two three four five" 2) as [H1 H2].
  split; [exact H1|].
  apply H2; [lia | vm_compute; tauto | reflexivity | reflexivity].
Defined.

(** C9 (as stated, refuted): a line that opens with four ['='] is kept
    whatever its length, so with two words per line the four-word line
    below survives every run; and with zero words per line every word
    stands on a line of its own, one word more than the setting. *)
Lemma formatter_idempotence_counterexample :
  ~ Claims.formatter_idempotence_claim 2 "==== one two three"
  /\ ~ Claims.formatter_idempotence_claim 0 "word".
Proof.
  split; intros [H _].
  - assert (Hin : In "==== one two three"
             (Claims.lines_of (Claims.format 2 (Claims.format 2 "==== one two three"))))
      by (vm_compute; tauto).
    specialize (H _ Hin eq_refl). vm_compute in H. apply H. reflexivity.
  - assert (Hin : In "word"
             (Claims.lines_of (Claims.format 0 (Claims.format 0 "word"))))
      by (vm_compute; tauto).
    specialize (H _ Hin eq_refl). vm_compute in H. apply H. reflexivity.
Qed.

End TextFacts.

(** ** Further properties of the loop and of the formatter *)

Section MoreFacts.
Import Aux.

(** A profile whose element is present but holds no text is skipped:
    the pass clicks the skip button and goes on to the next profile; the
    profile counter has been incremented at loop entry and the log is
    left as it was. *)
Theorem empty_page_skips_profile :
  forall debug o u c r st,
    Session.iteration debug (Session.Profile (inr "") o u c (inr tt) r) st
    = (Session.Continue,
       Session.State (S (Session.profile_count st)) (Session.log st)
         (Session.trace st ++ [Session.WaitProfile; Session.ClickSkip])%list).
Proof.
  intros. unfold Session.iteration, Session.get_page_text,
    Session.click_skip_button, Session.emit. cbn.
  rewrite <- app_assoc. reflexivity.
Qed.

(** The loop on a script in two parts: the second part is run from the
    state the first part leaves, when every pass of the first part went
    on to the next profile. *)
Lemma loop_app debug a b :
  forall st,
    Session.loop debug (a ++ b) st
    = match Session.loop debug a st with
      | (Session.Running, st1) => Session.loop debug b st1
      | r => r
      end.
Proof.
  induction a as [|p a IH]; intros st; [reflexivity|].
  cbn [app Session.loop].
  destruct (Session.iteration debug p st) as [[| |e] st1];
    [apply IH | reflexivity | reflexivity].
Qed.

(** A failure of the inference client ends the run, whichever pass it
    strikes, and the browser is closed on the way out.  After any
    number of passes that went on to the next profile, a pass whose
    page holds text and whose inference call fails raises that failure
    out of [main]: the pass is counted, its calls are the wait for the
    profile element and the inference call, [driver.quit()] follows as
    the last call of the run, the skip button is not tried, and the log
    is as the earlier passes left it. *)
Theorem oracle_failure_closes_browser :
  forall debug before p rest f st text e,
    Session.loop debug before (Session.State 0 f [Session.Input])
    = (Session.Running, st) ->
    Session.page p = inr text ->
    Str.is_empty text = false ->
    Session.oracle p = inl e ->
    Session.main debug (before ++ p :: rest) f
    = (Session.Raised e,
       Session.State (S (Session.profile_count st)) (Session.log st)
         (Session.trace st
          ++ [Session.WaitProfile; Session.Generate text; Session.Quit])).
Proof.
  intros debug before p rest f st text e Hbefore Hpage Htext Horacle.
  unfold Session.main. rewrite loop_app, Hbefore.
  cbn [Session.loop].
  unfold Session.iteration, Session.get_page_text,
    Session.analyze_text_for_interests, Session.emit.
  rewrite Hpage. cbn [Session.profile_count Session.log Session.trace].
  rewrite Htext, Horacle.
  cbn [Session.profile_count Session.log Session.trace].
  rewrite <- !app_assoc. reflexivity.
Qed.

(** An empty page is skipped, a second profile is analysed and passed
    over, and the inference call fails on the third. *)
Lemma oracle_failure_closes_browser_witness :
  Session.main false
    [Session.Profile (inr "") (inr "") "https://example.org/p/1"
       (Log.Datetime 2024 5 6 7 8 9) (inr tt) "";
     Session.Profile (inr "Likes hiking") (inr "EXPERIENCE: NO")
       "https://example.org/p/2" (Log.Datetime 2024 5 6 7 8 10) (inr tt) "";
     Session.Profile (inr "Built a surgical robot") (inl Session.OllamaError)
       "https://example.org/p/3" (Log.Datetime 2024 5 6 7 8 11) (inr tt) ""]
    None
  = (Session.Raised Session.OllamaError,
     Session.State 3 None
       [Session.Input;
        Session.WaitProfile; Session.ClickSkip;
        Session.WaitProfile; Session.Generate "Likes hiking";
        Session.Sleep; Session.ClickSkip;
        Session.WaitProfile; Session.Generate "Built a surgical robot";
        Session.Quit]).
Proof.
  exact (oracle_failure_closes_browser false
           [Session.Profile (inr "") (inr "") "https://example.org/p/1"
              (Log.Datetime 2024 5 6 7 8 9) (inr tt) "";
            Session.Profile (inr "Likes hiking") (inr "EXPERIENCE: NO")
              "https://example.org/p/2" (Log.Datetime 2024 5 6 7 8 10)
              (inr tt) ""]
           (Session.Profile (inr "Built a surgical robot")
              (inl Session.OllamaError) "https://example.org/p/3"
              (Log.Datetime 2024 5 6 7 8 11) (inr tt) "")
           [] None _ "Built a surgical robot" Session.OllamaError
           eq_refl eq_refl eq_refl eq_refl).
Defined.

(** A line of sixty ['='] is reproduced unchanged, whatever the
    setting. *)
Theorem separator_line_kept :
  forall n,
    Formatter.format_line n Log.separator = [Log.separator]
    /\ Claims.format n Log.separator = Log.separator.
Proof. intros n. split; reflexivity. Qed.

(** A Reason line with forty words is written as three lines of
    fifteen, fifteen and ten words, the first one carrying the label. *)
Theorem reason_line_of_forty_words :
  forall words,
    List.length words = 40 ->
    Forall (fun w => word w = true) words ->
    Formatter.format_line 15 ("Reason: " ++ Str.join " " words)
    = ["Reason: " ++ Str.join " " (firstn 15 words);
       Str.join " " (firstn 15 (skipn 15 words));
       Str.join " " (skipn 30 words)].
Proof.
  intros words Hlen Hw.
  assert (Hne : words <> []) by (destruct words; discriminate).
  change ("Reason: " ++ Str.join " " words)
    with ("Reason" ++ ":" ++ String " " (Str.join " " words)).
  rewrite format_line_labelled by (cbn; auto 6).
  rewrite strip_space by reflexivity.
  rewrite (strip_join _ Hne Hw).
  destruct (join_opens_visible _ Hne Hw) as [c [r [E _]]].
  rewrite E at 1. cbn [Str.is_empty negb].
  rewrite (split_ws_join _ Hw). clear E Hw Hne.
  do 40 (destruct words as [|? words]; [discriminate Hlen|]).
  destruct words; [|discriminate Hlen].
  reflexivity.
Qed.

Lemma reason_line_of_forty_words_witness :
  List.length
    (Formatter.format_line 15
       ("Reason: " ++ Str.join " " (List.repeat "word" 40))) = 3.
Proof.
  rewrite (reason_line_of_forty_words (List.repeat "word" 40)).
  - reflexivity.
  - reflexivity.
  - cbn [List.repeat]. repeat (constructor; [reflexivity|]). constructor.
Defined.

End MoreFacts.

(** ** Invariants of the session loop *)

Section LoopFacts.
Import Session Aux Aux2.

Lemma count_app p a b : count p (a ++ b)%list = count p a + count p b.
Proof. unfold count. rewrite filter_app, length_app. reflexivity. Qed.

Lemma grows_refl f : grows f f.
Proof. split; [exists ""; rewrite append_empty_r; reflexivity | auto]. Qed.

Lemma grows_trans f g h : grows f g -> grows g h -> grows f h.
Proof.
  intros [[a Ha] Hfg] [[b Hb] Hgh]. split; [|auto].
  exists (a ++ b). rewrite Hb, Ha, append_assoc. reflexivity.
Qed.

Lemma grows_append f e : grows f (Log.append_file f e).
Proof.
  destruct f as [old|]; (split; [exists e; reflexivity | discriminate]).
Qed.

Lemma count_none p t : existsb p t = false -> count p t = 0.
Proof.
  unfold count. induction t as [|e t IH]; intros H; [reflexivity|].
  cbn [existsb] in H. apply orb_false_elim in H as [He H].
  cbn [filter]. rewrite He. apply IH, H.
Qed.

Ltac finish_fact :=
  first [ reflexivity | apply grows_refl | apply grows_append
        | (intros; discriminate)
        | (let H := fresh in intros H; discriminate H)
        | (let H := fresh in intros H ?; discriminate H) ].

(** What one pass does to the state. *)
Lemma iteration_facts debug p st :
  exists evs,
    trace (snd (iteration debug p st)) = (trace st ++ evs)%list
    /\ existsb is_quit evs = false
    /\ (debug = false -> existsb is_input evs = false)
    /\ count is_wait evs = 1
    /\ profile_count (snd (iteration debug p st)) = S (profile_count st)
    /\ grows (log st) (log (snd (iteration debug p st)))
    /\ (debug = false -> fst (iteration debug p st) <> Break).
Proof.
  unfold iteration, get_page_text, analyze_text_for_interests, advance,
    click_skip_button, get_profile_url, save_candidate.
  destruct (page p) as [e|text]; cbn [fst snd emit trace log profile_count].
  - eexists. split; [reflexivity|]. splits; finish_fact.
  - destruct (Str.is_empty text).
    + destruct (skip_button p); cbn [fst snd emit trace log profile_count negb];
        rewrite <- ?app_assoc; (eexists; split; [reflexivity|]);
        splits; finish_fact.
    + destruct (oracle p) as [e|analysis];
        cbn [fst snd emit trace log profile_count].
      * rewrite <- ?app_assoc. eexists. split; [reflexivity|].
        splits; finish_fact.
      * destruct (Parser.truthy (Parser.has_experience (Parser.parse_response analysis)));
          destruct debug;
          cbn [fst snd emit trace log profile_count Log.save_candidate_to_file];
          repeat match goal with
          | |- context [String.eqb ?a ?b] => destruct (String.eqb a b); cbn [negb]
          | |- context [skip_button p] =>
              destruct (skip_button p);
              cbn [fst snd emit trace log profile_count negb]
          end;
          cbn [fst snd emit trace log profile_count negb];
          rewrite <- ?app_assoc; cbn [app];
          (eexists; split; [reflexivity|]);
          splits; finish_fact.
Qed.

(** What a run of the loop does to the state. *)
Lemma loop_facts debug script :
  forall st,
    exists evs,
      trace (snd (loop debug script st)) = (trace st ++ evs)%list
      /\ existsb is_quit evs = false
      /\ (debug = false -> existsb is_input evs = false)
      /\ profile_count (snd (loop debug script st))
         = profile_count st + count is_wait evs
      /\ count is_wait evs <= List.length script
      /\ (fst (loop debug script st) = Running ->
          count is_wait evs = List.length script)
      /\ grows (log st) (log (snd (loop debug script st)))
      /\ (debug = false -> fst (loop debug script st) <> Returned).
Proof.
  induction script as [|p script IH]; intros st.
  - exists []. cbn [loop fst snd]. rewrite app_nil_r.
    splits; auto using grows_refl; try discriminate; cbn; lia.
  - destruct (iteration_facts debug p st)
      as [evs [Ht [Hq [Hi [Hw [Hc [Hg Hb]]]]]]].
    cbn [loop]. destruct (iteration debug p st) as [fl st1].
    cbn [fst snd] in *.
    destruct fl.
    + destruct (IH st1) as [evs' [Ht' [Hq' [Hi' [Hc' [Hle [Hr [Hg' Hb']]]]]]]].
      exists (evs ++ evs')%list. rewrite Ht', Ht, app_assoc.
      split; [reflexivity|]. rewrite existsb_app, Hq, Hq'.
      split; [reflexivity|]. split.
      { intros Hd. rewrite existsb_app, (Hi Hd), (Hi' Hd). reflexivity. }
      rewrite count_app, Hw, Hc', Hc. cbn [List.length].
      splits; try lia.
      * intros H. specialize (Hr H). lia.
      * apply (grows_trans _ _ _ Hg Hg').
      * exact Hb'.
    + exists evs. cbn [fst snd]. rewrite Hw, Hc. cbn [List.length].
      splits; auto; try lia; try discriminate.
      intros Hd. destruct (Hb Hd eq_refl).
    + exists evs. cbn [fst snd]. rewrite Hw, Hc. cbn [List.length].
      splits; auto; try lia; discriminate.
Qed.


Lemma main_facts debug script f :
  exists evs,
    trace (snd (main debug script f))
    = ([Input] ++ evs
       ++ match fst (main debug script f) with
          | Running => []
          | _ => [Quit]
          end)%list
    /\ existsb is_quit evs = false
    /\ (debug = false -> existsb is_input evs = false)
    /\ profile_count (snd (main debug script f)) = count is_wait evs
    /\ count is_wait evs <= List.length script
    /\ (fst (main debug script f) = Running ->
        count is_wait evs = List.length script)
    /\ grows f (log (snd (main debug script f)))
    /\ (debug = false -> fst (main debug script f) <> Returned).
Proof.
  destruct (loop_facts debug script (State 0 f [Input]))
    as [evs [Ht [Hq [Hi [Hc [Hle [Hr [Hg Hb]]]]]]]].
  exists evs. unfold main.
  destruct (loop debug script (State 0 f [Input])) as [o st].
  cbn [fst snd trace log profile_count] in *.
  destruct o; cbn [fst snd emit trace log profile_count];
    rewrite Ht, <- ?app_assoc, ?app_nil_r; splits; auto.
Qed.

(** Without the confirmation prompt the loop has no way out but an
    exception: [main] never returns from a run in autonomous mode. *)
Theorem autonomous_run_never_returns :
  forall script f, fst (main false script f) <> Returned.
Proof.
  intros script f.
  destruct (main_facts false script f) as [evs [_ [_ [_ [_ [_ [_ [_ H]]]]]]]].
  apply H. reflexivity.
Qed.

(** Whatever happens during a run, in either mode, the log only grows:
    what the file held before the run is a prefix of what it holds
    after it, byte for byte, and a file that existed still exists. *)
Theorem log_only_grows :
  forall debug script f,
    (exists added,
        Log.file_bytes (log (snd (main debug script f)))
        = (Log.file_bytes f ++ Log.utf8 added)%list)
    /\ (f <> None -> log (snd (main debug script f)) <> None).
Proof.
  intros debug script f.
  destruct (main_facts debug script f)
    as [evs [_ [_ [_ [_ [_ [_ [[[added Ha] Hn] _]]]]]]]].
  split; [|exact Hn]. exists added.
  assert (Hb : forall g, Log.file_bytes g = Log.utf8 (file_text g))
    by (intros [t|]; reflexivity).
  rewrite !Hb, Ha. apply utf8_app.
Qed.

(** The browser is closed exactly once, as the last call, in every run
    that ends, by return or by exception; it is not closed while the
    loop is still going. *)
Theorem browser_closed_when_run_ends :
  forall debug script f,
    match fst (main debug script f) with
    | Running => count is_quit (trace (snd (main debug script f))) = 0
    | _ =>
        exists evs,
          trace (snd (main debug script f)) = (evs ++ [Quit])%list
          /\ count is_quit evs = 0
    end.
Proof.
  intros debug script f.
  destruct (main_facts debug script f) as [evs [Ht [Hq _]]].
  assert (H0 : count is_quit ([Input] ++ evs)%list = 0).
  { rewrite count_app, (count_none _ _ Hq). reflexivity. }
  destruct (fst (main debug script f)).
  - exists ([Input] ++ evs)%list. rewrite Ht, app_assoc. auto.
  - exists ([Input] ++ evs)%list. rewrite Ht, app_assoc. auto.
  - rewrite Ht, app_nil_r. exact H0.
Qed.

(** In autonomous mode the operator is asked once, before the first
    profile, and never again: the two prompts for manual intervention
    after a failed click cannot be reached, because [click_skip_button]
    returns [True] or raises. *)
Theorem autonomous_run_never_prompts :
  forall script f, count is_input (trace (snd (main false script f))) = 1.
Proof.
  intros script f.
  destruct (main_facts false script f) as [evs [Ht [_ [Hi _]]]].
  specialize (Hi eq_refl). rewrite Ht, !count_app.
  rewrite (count_none _ _ Hi). destruct (fst (main false script f)); reflexivity.
Qed.

(** The profile counter is the number of passes begun, that is the
    number of waits for a profile element, whether or not the pass got
    as far as an analysis; it is at most the number of profiles met,
    and equal to it while the loop is still going. *)
Theorem profile_counter_counts_passes :
  forall debug script f,
    profile_count (snd (main debug script f))
    = count is_wait (trace (snd (main debug script f)))
    /\ profile_count (snd (main debug script f)) <= List.length script
    /\ (fst (main debug script f) = Running ->
        profile_count (snd (main debug script f)) = List.length script).
Proof.
  intros debug script f.
  destruct (main_facts debug script f) as [evs [Ht [_ [_ [Hc [Hle [Hr _]]]]]]].
  rewrite Ht, Hc, !count_app. splits.
  - destruct (fst (main debug script f)); cbn; lia.
  - exact Hle.
  - exact Hr.
Qed.



End LoopFacts.

(** ** The check of the model *)

Section StartupFacts.
Import Startup.

Lemma listed_iff response model :
  existsb (String.eqb model) (available_models response) = true
  <-> In model (available_models response).
Proof.
  rewrite existsb_exists. split.
  - intros [x [Hin Hx]]. apply String.eqb_eq in Hx. subst x. exact Hin.
  - intros Hin. exists model. split; [exact Hin | apply String.eqb_refl].
Qed.

(** The two shapes of the listing are not read alike: an object entry
    is known by its [model] attribute first, a mapping entry by its
    ["name"] key first.  For an entry that carries both, with different
    values, the check therefore accepts the [model] value and refuses
    the [name] value on an object, and the other way round on a
    mapping. *)
Theorem listing_shapes_disagree :
  forall a b str items,
    a <> b ->
    lookup "name" items = Some b ->
    lookup "model" items = Some a ->
    let object := inr (ObjectResponse [ModelObject (Some a) (Some b) str]) in
    let mapping :=
      inr (MappingResponse [("models", [ModelMapping items str])]) in
    check_ollama_connection object a = inr true
    /\ check_ollama_connection object b = inr false
    /\ check_ollama_connection mapping a = inr false
    /\ check_ollama_connection mapping b = inr true.
Proof.
  intros a b str items Hab Hn Hm object mapping. subst object mapping.
  unfold check_ollama_connection, available_models, object_model_name,
    mapping_model_name.
  assert (Hl : forall v : list model_mapping,
             lookup "models" [("models", v)] = Some v) by reflexivity.
  rewrite Hl. cbn [map existsb attr_model attr_name model_items]. rewrite Hn.
  rewrite !String.eqb_refl.
  assert (Hba : String.eqb b a = false) by (apply String.eqb_neq; congruence).
  assert (Hab' : String.eqb a b = false) by (apply String.eqb_neq; congruence).
  rewrite Hba, Hab'. auto.
Qed.

Lemma listing_shapes_disagree_witness :
  check_ollama_connection
    (inr (ObjectResponse
            [ModelObject (Some "qwen2.5:32b") (Some "qwen") "Model(...)"]))
    "qwen2.5:32b" = inr true
  /\ check_ollama_connection
       (inr (MappingResponse
               [("models",
                 [ModelMapping [("model", "qwen2.5:32b"); ("name", "qwen")]
                    "{...}"])]))
       "qwen2.5:32b" = inr false.
Proof.
  destruct (listing_shapes_disagree "qwen2.5:32b" "qwen" "Model(...)"
              [("model", "qwen2.5:32b"); ("name", "qwen")])
    as [H1 [_ [H3 _]]]; [discriminate | reflexivity | reflexivity |].
  destruct (listing_shapes_disagree "qwen2.5:32b" "qwen" "{...}"
              [("model", "qwen2.5:32b"); ("name", "qwen")])
    as [_ [_ [H3' _]]]; [discriminate | reflexivity | reflexivity |].
  split; [exact H1 | exact H3'].
Defined.

(** The browser is started only for a model that the listing names,
    letter for letter: when the listing fails, or does not hold the
    name, [main] ends at once, with the exception or with [False],
    without one call to the browser or to the operator and with the log
    untouched; when the name is listed, the session begins with the
    operator's acknowledgment. *)
Theorem browser_starts_only_with_listed_model :
  forall model debug script f,
    (forall e,
        main (inl e) model debug script f
        = (Uncaught e, Session.State 0 f []))
    /\ (forall response,
          ~ In model (available_models response) ->
          main (inr response) model debug script f
          = (Return false, Session.State 0 f []))
    /\ (forall response,
          In model (available_models response) ->
          exists evs,
            Session.trace (snd (main (inr response) model debug script f))
            = Session.Input :: evs).
Proof.
  intros model debug script f. split; [reflexivity|]. split.
  - intros response Hn. unfold main, check_ollama_connection.
    destruct (existsb (String.eqb model) (available_models response)) eqn:E;
      [|reflexivity].
    apply listed_iff in E. contradiction.
  - intros response Hin. unfold main, check_ollama_connection.
    apply listed_iff in Hin. rewrite Hin.
    destruct (main_facts debug script f) as [evs [Ht _]].
    destruct (Session.main debug script f) as [o st]. cbn [fst snd] in *.
    destruct o; cbn [snd]; rewrite Ht; eexists; reflexivity.
Qed.

Lemma browser_starts_only_with_listed_model_witness :
  main (inr (ObjectResponse [ModelObject (Some "llama3.2:latest") None "m"]))
    "llama3.2" false [] None
  = (Return false, Session.State 0 None []).
Proof.
  destruct (browser_starts_only_with_listed_model "llama3.2" false [] None)
    as [_ [H _]].
  apply H. cbn. intros [H0|[]]. discriminate H0.
Defined.

End StartupFacts.

(** ** Edge behaviour of the parser *)

Section ParserEdges.
Import Re Aux Aux2 Parser.

Lemma search_skip {A} (m : cont (A := A)) pre u :
  (forall a b, pre = a ++ b -> b <> "" -> m (b ++ u) = None) ->
  search m (pre ++ u) = search m u.
Proof.
  induction pre as [|c pre IH]; intros H; [reflexivity|].
  cbn [append]. rewrite search_step.
  - apply IH. intros a b -> Hb. apply (H (String c a) b); [reflexivity | exact Hb].
  - apply (H "" (String c pre)); [reflexivity | discriminate].
Qed.

Lemma startswith_app_long a b p :
  String.length p <= String.length a ->
  Str.startswith (a ++ b) p = Str.startswith a p.
Proof.
  revert a. induction p as [|x p IH]; intros a H;
    [rewrite !startswith_empty; reflexivity|].
  destruct a as [|c a]; [cbn in H; lia|].
  cbn [append Str.startswith]. f_equal. apply IH. cbn in H. lia.
Qed.

Lemma contains_head s p : Claims.contains s p = false -> Str.startswith s p = false.
Proof. destruct s; cbn [Claims.contains]; intros H; apply orb_false_elim in H as [H _]; exact H. Qed.

Lemma contains_suffix a s p :
  Claims.contains (a ++ s) p = false -> Claims.contains s p = false.
Proof.
  induction a as [|c a IH]; intros H; [exact H|].
  cbn [append Claims.contains] in H. apply orb_false_elim in H as [_ H].
  apply IH, H.
Qed.

(** No occurrence of the pattern word [p0 ++ last] begins inside [pre]
    when [pre] is followed by that word. *)
Lemma no_start_inside p0 last pre b a rest :
  Claims.contains (pre ++ p0) (p0 ++ last) = false ->
  String.length last = 1 ->
  pre = a ++ b -> b <> "" ->
  Str.startswith (b ++ (p0 ++ last) ++ rest) (p0 ++ last) = false.
Proof.
  intros H Hl -> Hb.
  rewrite append_assoc in H. apply contains_suffix, contains_head in H.
  replace (b ++ (p0 ++ last) ++ rest) with ((b ++ p0) ++ last ++ rest)
    by (rewrite !append_assoc; reflexivity).
  rewrite startswith_app_long; [exact H|].
  rewrite !length_append, Hl. destruct b; [congruence | cbn; lia].
Qed.

Lemma search_label_after {A} p0 last (k : cont (A := A)) pre rest :
  Claims.contains (pre ++ p0) (p0 ++ last) = false ->
  String.length last = 1 ->
  search (lit false (p0 ++ last) k) (pre ++ (p0 ++ last) ++ rest)
  = search (lit false (p0 ++ last) k) ((p0 ++ last) ++ rest).
Proof.
  intros H Hl. apply search_skip. intros a b Hpre Hb.
  destruct (lit false (p0 ++ last) k (b ++ (p0 ++ last) ++ rest)) eqn:E;
    [|reflexivity].
  apply lit_needs_prefix in E.
  rewrite (no_start_inside _ _ _ _ _ _ H Hl Hpre Hb) in E. discriminate.
Qed.

(** The pattern of the name skips any whitespace after the label, line
    feeds included, and takes the rest of the line on which the first
    visible character stands. *)
Lemma name_re_after_space ws c w tail :
  all_chars Chr.isspace ws = true ->
  Chr.isspace c = false ->
  Str.contains_chr Chr.newline w = false ->
  tail = "" \/ (exists rest, tail = String Chr.newline rest) ->
  name_re ("NAME:" ++ ws ++ String c w ++ tail) = Some (String c w).
Proof.
  intros Hws Hc Hw Htail. unfold name_re.
  rewrite lit_complete by reflexivity.
  apply star_longest; [exact Hws | cbn [append blocked]; rewrite Hc; reflexivity|].
  cbn [append plus_group].
  assert (Hc' : not_newline c = true).
  { unfold not_newline. destruct (Ascii.eqb c Chr.newline) eqn:E; [|reflexivity].
    apply Ascii.eqb_eq in E. subst c. discriminate Hc. }
  rewrite Hc', star_group_group1. cbn [append]. do 2 f_equal.
  destruct Htail as [-> | [rest ->]].
  - rewrite append_empty_r. apply take_while_whole, Hw.
  - apply take_while_line, Hw.
Qed.

(** When nothing visible follows the NAME label on its line, the name
    is the next line that holds something: the whitespace after the
    label may run over line ends.  The text before the label is any
    text in which the label does not occur. *)
Theorem name_is_next_visible_line :
  forall pre ws c w tail,
    Claims.contains (pre ++ "NAME") "NAME:" = false ->
    all_chars Chr.isspace ws = true ->
    Chr.isspace c = false ->
    Str.contains_chr Chr.newline w = false ->
    tail = "" \/ (exists rest, tail = String Chr.newline rest) ->
    person_name (parse_response (pre ++ "NAME:" ++ ws ++ String c w ++ tail))
    = Str.strip (String c w).
Proof.
  intros pre ws c w tail Hpre Hws Hc Hw Htail.
  unfold parse_response. cbn [person_name]. unfold name_re at 1.
  change (pre ++ "NAME:" ++ ws ++ String c w ++ tail)
    with (pre ++ ("NAME" ++ ":") ++ ws ++ String c w ++ tail).
  change "NAME:" with ("NAME" ++ ":") at 1.
  rewrite (search_label_after "NAME" ":" _ pre _ Hpre eq_refl).
  rewrite (search_hit _ _ (String c w)); [reflexivity|].
  apply (name_re_after_space ws c w tail Hws Hc Hw Htail).
Qed.

Lemma name_is_next_visible_line_witness :
  person_name
    (parse_response
       ("The answer." ++ Log.nl ++ "NAME:" ++ Log.nl ++ "EXPERIENCE: YES"
        ++ Log.nl ++ "SUMMARY: robots"))
  = "EXPERIENCE: YES".
Proof.
  exact (name_is_next_visible_line ("The answer." ++ Log.nl) Log.nl
           "E"%char "XPERIENCE: YES" (Log.nl ++ "SUMMARY: robots")
           eq_refl eq_refl eq_refl eq_refl
           (or_intror (ex_intro _ "SUMMARY: robots" eq_refl))).
Defined.

Lemma star_backtracks_to_last ws l :
  all_chars Chr.isspace ws = true ->
  last_char ws = Some l ->
  star Chr.isspace (plus_group any_char group1) ws = Some (String l "").
Proof.
  induction ws as [|c ws IH]; intros Hws Hl; [discriminate|].
  cbn [all_chars] in Hws. apply andb_prop in Hws as [Hc Hws].
  cbn [star]. rewrite Hc. destruct ws as [|c' ws'].
  - injection Hl as <-. reflexivity.
  - rewrite (IH Hws Hl). reflexivity.
Qed.

Lemma last_char_space ws l :
  all_chars Chr.isspace ws = true -> last_char ws = Some l -> Chr.isspace l = true.
Proof.
  induction ws as [|c ws IH]; intros Hws Hl; [discriminate|].
  cbn [all_chars] in Hws. apply andb_prop in Hws as [Hc Hws].
  destruct ws as [|c' ws']; [injection Hl as <-; exact Hc | apply (IH Hws Hl)].
Qed.

Lemma last_char_some c s : exists l, last_char (String c s) = Some l.
Proof.
  revert c. induction s as [|d s IH]; intros c; [eexists; reflexivity|].
  destruct (IH d) as [l Hl]. exists l. exact Hl.
Qed.

(** The summary is all the text after the first SUMMARY label and the
    whitespace that follows it, to the very end of the answer, line
    feeds and later labels included, stripped at both ends; a label
    followed by whitespace only gives the empty summary, and only a
    label at the very end of the text gives the default. *)
Theorem summary_runs_to_end :
  forall pre ws,
    Claims.contains (pre ++ "SUMMARY") "SUMMARY:" = false ->
    all_chars Chr.isspace ws = true ->
    (forall c body,
        Chr.isspace c = false ->
        summary (parse_response (pre ++ "SUMMARY:" ++ ws ++ String c body))
        = Str.strip (String c body))
    /\ (ws <> "" -> summary (parse_response (pre ++ "SUMMARY:" ++ ws)) = "")
    /\ summary (parse_response (pre ++ "SUMMARY:")) = "No summary available".
Proof.
  intros pre ws Hpre Hws.
  assert (Hskip : forall rest,
             search summary_re (pre ++ "SUMMARY:" ++ rest)
             = search summary_re ("SUMMARY:" ++ rest)).
  { intros rest. unfold summary_re.
    apply (search_label_after "SUMMARY" ":" _ pre rest Hpre eq_refl). }
  splits.
  - intros c body Hc. unfold parse_response. cbn [summary].
    rewrite Hskip, (search_hit _ _ (String c body)); [reflexivity|].
    unfold summary_re. rewrite lit_complete by reflexivity.
    apply star_longest; [exact Hws | cbn [blocked]; rewrite Hc; reflexivity|].
    cbn [plus_group any_char]. rewrite star_group_group1, take_while_any.
    reflexivity.
  - intros Hne. destruct ws as [|c ws]; [congruence|].
    destruct (last_char_some c ws) as [l Hl].
    unfold parse_response. cbn [summary].
    rewrite Hskip, (search_hit _ _ (String l "")).
    + unfold Str.strip. cbn [Str.lstrip].
      rewrite (last_char_space _ _ Hws Hl). reflexivity.
    + unfold summary_re. rewrite lit_complete by reflexivity.
      apply (star_backtracks_to_last _ _ Hws Hl).
  - unfold parse_response. cbn [summary].
    rewrite <- (append_empty_r "SUMMARY:") at 1. rewrite Hskip.
    reflexivity.
Qed.

Lemma summary_runs_to_end_witness :
  summary
    (parse_response
       ("NAME: Jane" ++ Log.nl ++ "SUMMARY: robots" ++ Log.nl ++ "EXPERIENCE: NO"))
  = "robots" ++ Log.nl ++ "EXPERIENCE: NO".
Proof.
  destruct (summary_runs_to_end ("NAME: Jane" ++ Log.nl) " " eq_refl eq_refl)
    as [H _].
  exact (H "r"%char ("obots" ++ Log.nl ++ "EXPERIENCE: NO") eq_refl).
Defined.

(** At the leftmost EXPERIENCE tag only the first letters after the
    whitespace count: a value that merely begins with YES (or NO), in
    any case, sets the flag as YES (or NO) does, whatever follows. *)
Theorem flag_reads_token_prefix :
  forall lab ws tok rest,
    ci_equal lab "EXPERIENCE:" = true ->
    all_chars Chr.isspace ws = true ->
    ci_equal tok "YES" = true \/ ci_equal tok "NO" = true ->
    has_experience (parse_response (lab ++ ws ++ tok ++ rest))
    = PyBool (ci_equal tok "YES").
Proof.
  intros lab ws tok rest Hlab Hws Htok.
  rewrite flag_of_search.
  assert (E : experience_re (lab ++ ws ++ tok ++ rest) = Some tok).
  { apply experience_re_spec. exists lab, ws, rest. auto. }
  rewrite (search_hit _ _ _ E). f_equal.
  destruct Htok as [Hy|Hn].
  - rewrite (upper_of_ci_equal _ _ Hy), Hy. reflexivity.
  - rewrite (upper_of_ci_equal _ _ Hn).
    destruct (ci_equal tok "YES") eqn:Hy; [|reflexivity].
    apply upper_of_ci_equal in Hy, Hn. rewrite Hy in Hn. discriminate Hn.
Qed.

Lemma flag_reads_token_prefix_witness :
  has_experience (parse_response "Experience: yesterday he said no")
  = PyBool true.
Proof.
  exact (flag_reads_token_prefix "Experience:" " " "yes" "terday he said no"
           eq_refl eq_refl (or_introl eq_refl)).
Defined.

End ParserEdges.

(** ** The count on a log that holds other text *)

Section ExistingLog.
Import Log Aux.

(** The writer keeps no counter: on a log that already holds any text,
    written by this program or not, the record is appended to that text
    and the printed count is the number of ["Name:"] lines of the old
    text, plus one, plus the line breaks directly followed by ["Name:"]
    inside the fields of the new record. *)
Theorem count_on_existing_log :
  forall now person_name url summary text,
    save_candidate_to_file now person_name url summary (Some text)
    = (Some (text ++ entry (strftime now) person_name url summary),
       Some (name_lines text + 1
             + (breaks_before_name person_name + breaks_before_name url
                + breaks_before_name summary))).
Proof.
  intros now person_name url summary text.
  pose proof (save_count (Candidate now person_name url summary) (Some text)) as H.
  unfold save, embedded in H. cbn [c_now c_name c_url c_summary file_text] in H.
  unfold save_candidate_to_file in *. cbn [snd append_file] in *.
  rewrite H. reflexivity.
Qed.

End ExistingLog.

(** ** Laws of the word loop *)

Section WrapLaws.
Import Aux Aux2 Formatter.

Lemma wrap_loop_out n ws :
  forall cur out o,
    wrap_loop n ws cur (o ++ out)%list
    = (fst (wrap_loop n ws cur out), (o ++ snd (wrap_loop n ws cur out))%list).
Proof.
  induction ws as [|w ws IH]; intros cur out o; [reflexivity|].
  cbn [wrap_loop].
  destruct (Z.of_nat (List.length (cur ++ [w])%list) >=? n)%Z.
  - rewrite <- app_assoc. apply IH.
  - apply IH.
Qed.

Lemma wrap_loop_full n a :
  forall cur b out,
    a <> [] ->
    Z.of_nat (List.length (cur ++ a)%list) = n ->
    wrap_loop n (a ++ b)%list cur out
    = wrap_loop n b [] (out ++ [Str.join " " (cur ++ a)%list])%list.
Proof.
  induction a as [|x a IH]; intros cur b out Hne Hlen; [congruence|].
  cbn [app wrap_loop].
  destruct a as [|y a].
  - rewrite Hlen, Z.geb_leb, Z.leb_refl. reflexivity.
  - assert (Hlt : (Z.of_nat (List.length (cur ++ [x])%list) >=? n)%Z = false).
    { rewrite Z.geb_leb. apply Z.leb_gt. rewrite <- Hlen, !length_app.
      cbn [List.length]. lia. }
    rewrite Hlt.
    replace (cur ++ x :: y :: a)%list with ((cur ++ [x]) ++ y :: a)%list
      by (rewrite <- app_assoc; reflexivity).
    apply IH; [discriminate|]. rewrite <- app_assoc. exact Hlen.
Qed.

(** The loop closes a line as soon as it holds [n] words. *)
Lemma wrap_full n a b :
  (1 <= n)%Z -> Z.of_nat (List.length a) = n ->
  wrap n (a ++ b)%list = Str.join " " a :: wrap n b.
Proof.
  intros Hn Hlen. unfold wrap.
  assert (Hne : a <> []) by (destruct a; [cbn in Hlen; lia | discriminate]).
  rewrite (wrap_loop_full n a [] b [] Hne Hlen). cbn [app].
  change [Str.join " " a] with ([Str.join " " a] ++ [])%list.
  rewrite wrap_loop_out.
  destruct (wrap_loop n b [] []) as [cur out]. cbn [fst snd].
  destruct cur; reflexivity.
Qed.

Lemma ceil_small k N : 1 <= k -> k <= N -> (k + N - 1) / N = 1.
Proof.
  intros Hk HN. symmetry. apply (Nat.div_unique _ N 1 (k - 1)); lia.
Qed.

Lemma ceil_step k N : 1 <= N -> N < k -> (k + N - 1) / N = S ((k - N + N - 1) / N).
Proof.
  intros HN Hk.
  replace (k + N - 1) with ((k - N + N - 1) + 1 * N) by lia.
  rewrite Nat.div_add by lia. lia.
Qed.

(** The number of lines the loop makes out of [k] words is [k] divided
    by the setting, rounded up. *)
Lemma wrap_length n words :
  (1 <= n)%Z ->
  List.length (wrap n words)
  = (List.length words + Z.to_nat n - 1) / Z.to_nat n.
Proof.
  intros Hn. set (N := Z.to_nat n).
  assert (HN : 1 <= N) by (unfold N; lia).
  assert (Hfuel : forall k ws, List.length ws <= k ->
             List.length (wrap n ws) = (List.length ws + N - 1) / N).
  { induction k as [|k IH]; intros ws Hk.
    - destruct ws; [|cbn in Hk; lia]. cbn [wrap_loop wrap List.length].
      symmetry. apply Nat.div_small. lia.
    - destruct (Nat.le_gt_cases (List.length ws) N) as [Hle|Hgt].
      + destruct ws as [|w ws'].
        * cbn [List.length]. symmetry. apply Nat.div_small. lia.
        * rewrite wrap_small; [|discriminate | left; unfold N in Hle; lia].
          cbn [List.length] in *. rewrite ceil_small; [reflexivity | lia | lia].
      + rewrite <- (firstn_skipn N ws) at 1.
        rewrite wrap_full;
          [|exact Hn | rewrite length_firstn; unfold N in *; lia].
        cbn [List.length]. rewrite IH by (rewrite length_skipn; lia).
        rewrite length_skipn. symmetry. apply ceil_step; lia. }
  apply (Hfuel (List.length words)). apply Nat.le_refl.
Qed.

Lemma wrap_loop_words n words :
  Forall (fun w => word w = true) words ->
  forall cur out,
    Forall (fun w => word w = true) cur ->
    (words_of (snd (wrap_loop n words cur out))
     ++ fst (wrap_loop n words cur out))%list
    = (words_of out ++ cur ++ words)%list.
Proof.
  induction 1 as [|w words Hw Hwords IH]; intros cur out Hcur.
  - cbn [wrap_loop fst snd]. rewrite app_nil_r. reflexivity.
  - cbn [wrap_loop].
    assert (Hcur1 : Forall (fun w => word w = true) (cur ++ [w])%list)
      by (apply Forall_app; auto).
    destruct (Z.of_nat (List.length (cur ++ [w])%list) >=? n)%Z.
    + rewrite IH by constructor. unfold words_of.
      rewrite flat_map_app. cbn [flat_map].
      rewrite (split_ws_join _ Hcur1), !app_nil_r, <- !app_assoc. reflexivity.
    + rewrite (IH _ _ Hcur1), <- !app_assoc. reflexivity.
Qed.

(** The lines of the loop hold the words it was given, in order. *)
Lemma wrap_words n words :
  Forall (fun w => word w = true) words -> words_of (wrap n words) = words.
Proof.
  intros H. pose proof (wrap_loop_words n words H [] [] (Forall_nil _)) as E.
  pose proof (wrap_loop_chunks n words H [] [] (Forall_nil _)
                (or_introl eq_refl) (Forall_nil _)) as [Hcur _].
  unfold wrap. destruct (wrap_loop n words [] []) as [cur out].
  cbn [fst snd app] in *. unfold words_of in *. cbn [flat_map app] in E.
  destruct cur as [|w cur].
  - rewrite app_nil_r in E. exact E.
  - rewrite flat_map_app. cbn [flat_map].
    rewrite (split_ws_join _ Hcur), app_nil_r. exact E.
Qed.

End WrapLaws.

(** ** What the formatter does to lines and words *)

Section FormatterLaws.
Import Aux Aux2 Formatter.

Lemma join_cons_char sep c l ls :
  Str.join sep (String c l :: ls) = String c (Str.join sep (l :: ls)).
Proof. destruct ls; reflexivity. Qed.

(** Joining the lines of a text gives the text back. *)
Lemma join_split t : Str.join Log.nl (Str.split_chr Chr.newline t) = t.
Proof.
  induction t as [|c t IH]; [reflexivity|]. cbn [Str.split_chr].
  destruct (Ascii.eqb c Chr.newline) eqn:Hc.
  - apply Ascii.eqb_eq in Hc. subst c.
    pose proof (split_chr_nonempty Chr.newline t) as Hne.
    destruct (Str.split_chr Chr.newline t) as [|l ls]; [congruence|].
    change (Str.join Log.nl ("" :: l :: ls))
      with (String Chr.newline (Str.join Log.nl (l :: ls))).
    rewrite IH. reflexivity.
  - pose proof (split_chr_nonempty Chr.newline t) as Hne.
    destruct (Str.split_chr Chr.newline t) as [|l ls]; [congruence|].
    rewrite join_cons_char, IH. reflexivity.
Qed.

Lemma cons_word_app w a b :
  Str.cons_word w (a ++ b)%list = (Str.cons_word w a ++ b)%list.
Proof. unfold Str.cons_word. destruct (Str.is_empty w); reflexivity. Qed.

Lemma words_from_app_space x c rest :
  Chr.isspace c = true ->
  Str.words_from (x ++ String c rest)
  = (fst (Str.words_from x), (snd (Str.words_from x) ++ Str.split_ws rest)%list).
Proof.
  intros Hc. induction x as [|d x IH].
  - cbn [append]. rewrite (words_from_space _ _ Hc). reflexivity.
  - cbn [append]. destruct (Chr.isspace d) eqn:Hd.
    + rewrite !(words_from_space _ _ Hd).
      rewrite (split_ws_eq (x ++ String c rest)), (split_ws_eq x), IH.
      cbn [fst snd]. rewrite cons_word_app. reflexivity.
    + rewrite !(words_from_visible _ _ Hd), IH. reflexivity.
Qed.

(** Whitespace between two texts keeps their words apart. *)
Lemma split_ws_app_space x c rest :
  Chr.isspace c = true ->
  Str.split_ws (x ++ String c rest) = (Str.split_ws x ++ Str.split_ws rest)%list.
Proof.
  intros Hc. rewrite (split_ws_eq (x ++ String c rest)).
  rewrite (words_from_app_space _ _ _ Hc). cbn [fst snd].
  rewrite cons_word_app, <- split_ws_eq. reflexivity.
Qed.

Lemma split_ws_lines ls : Str.split_ws (Str.join Log.nl ls) = words_of ls.
Proof.
  unfold words_of. induction ls as [|x ls IH]; [reflexivity|].
  destruct ls as [|y ls].
  - cbn [Str.join flat_map]. rewrite app_nil_r. reflexivity.
  - change (Str.join Log.nl (x :: y :: ls))
      with (x ++ String Chr.newline (Str.join Log.nl (y :: ls))).
    rewrite split_ws_app_space by reflexivity. rewrite IH. reflexivity.
Qed.

Lemma split_ws_run w :
  all_chars visible w = true -> w <> "" -> Str.split_ws w = [w].
Proof.
  intros Hw Hne. rewrite split_ws_eq.
  rewrite <- (append_empty_r w) at 1 2. rewrite (words_from_run _ _ Hw).
  cbn [Str.words_from fst snd]. rewrite append_empty_r.
  destruct w; [congruence | reflexivity].
Qed.

Lemma split_ws_nil_head rest :
  Str.split_ws rest = [] ->
  rest = "" \/ exists c r, rest = String c r /\ Chr.isspace c = true.
Proof.
  intros H. destruct rest as [|c r]; [left; reflexivity|]. right.
  exists c, r. split; [reflexivity|].
  destruct (Chr.isspace c) eqn:Hc; [reflexivity|].
  rewrite (split_ws_visible _ _ Hc) in H. discriminate.
Qed.

(** The words of a labelled line: the label, then the words after
    it, when the label is followed by a blank or by nothing. *)
Lemma split_ws_label hp rest :
  In hp header_parts ->
  rest = "" \/ (exists c r, rest = String c r /\ Chr.isspace c = true) ->
  Str.split_ws (hp ++ ":" ++ rest) = (hp ++ ":") :: Str.split_ws rest.
Proof.
  intros Hhp Hrest.
  assert (Hrun : Str.split_ws (hp ++ ":") = [hp ++ ":"]).
  { apply split_ws_run; [apply header_part_visible, Hhp|].
    destruct hp; discriminate. }
  rewrite <- append_assoc.
  destruct Hrest as [-> | [c [r [-> Hc]]]].
  - rewrite append_empty_r. exact Hrun.
  - rewrite (split_ws_app_space _ _ _ Hc), Hrun, (split_ws_space _ _ Hc).
    reflexivity.
Qed.

Lemma line_words_labelled hp rest :
  In hp header_parts ->
  line_words (hp ++ ":" ++ rest) = (hp ++ ":") :: Str.split_ws rest.
Proof.
  intros Hhp. unfold line_words. rewrite (labelled_is_header _ _ Hhp).
  destruct Hhp as [<-|[<-|[<-|[<-|[]]]]]; reflexivity.
Qed.

Lemma line_words_plain l : is_header l = false -> line_words l = Str.split_ws l.
Proof.
  intros H. unfold line_words. rewrite H.
  destruct (Str.split_once ":" l) as [[h rest]|]; reflexivity.
Qed.

(** The lines written for one input line hold its words, in order. *)
Lemma format_line_words n l : words_of (format_line n l) = line_words l.
Proof.
  destruct (is_header l) eqn:Hh.
  - destruct (is_header_inv _ Hh) as [hp [rest [Hhp ->]]].
    rewrite (line_words_labelled _ _ Hhp), (format_line_labelled _ _ _ Hhp).
    assert (Hkept : Str.split_ws rest = [] ->
              words_of [hp ++ ":" ++ rest] = (hp ++ ":") :: Str.split_ws rest).
    { intros H0. unfold words_of. cbn [flat_map]. rewrite app_nil_r.
      apply (split_ws_label _ _ Hhp), split_ws_nil_head, H0. }
    destruct (Str.is_empty (Str.strip rest)) eqn:He; cbn [negb].
    + apply Hkept, blank_no_words, He.
    + pose proof (wrap_words n _ (split_ws_valid (Str.strip rest))) as Hw.
      destruct (wrap n (Str.split_ws (Str.strip rest))) as [|first others] eqn:Ew.
      * apply Hkept. rewrite <- split_ws_strip.
        destruct (Str.split_ws (Str.strip rest)) eqn:E0; [reflexivity|].
        exfalso. apply (wrap_nonempty n (s :: l)); [discriminate | exact Ew].
      * unfold words_of in *. cbn [flat_map] in *.
        change (hp ++ ": " ++ first) with (hp ++ ":" ++ String " " first).
        rewrite (split_ws_label hp (String " " first) Hhp)
          by (right; exists " "%char, first; auto).
        rewrite (split_ws_space " " first) by reflexivity.
        cbn [app]. rewrite Hw, split_ws_strip. reflexivity.
  - rewrite (line_words_plain _ Hh), (format_line_plain _ _ Hh).
    destruct (Str.is_empty (Str.strip l) || Str.startswith (Str.strip l) "====");
      [unfold words_of; cbn [flat_map]; apply app_nil_r|].
    destruct (Z.of_nat (List.length (Str.split_ws l)) >? n)%Z.
    + apply wrap_words, split_ws_valid.
    + unfold words_of. cbn [flat_map]. apply app_nil_r.
Qed.

Lemma flat_map_flat_map {X Y W} (f : Y -> list W) (g : X -> list Y) ls :
  flat_map f (flat_map g ls) = flat_map (fun x => flat_map f (g x)) ls.
Proof.
  induction ls as [|x ls IH]; [reflexivity|].
  cbn [flat_map]. rewrite flat_map_app, IH. reflexivity.
Qed.

Lemma flat_map_same {X Y} (f g : X -> list Y) ls :
  (forall x, In x ls -> f x = g x) -> flat_map f ls = flat_map g ls.
Proof.
  induction ls as [|x ls IH]; intros H; [reflexivity|].
  cbn [flat_map]. rewrite (H x (or_introl eq_refl)), IH; [reflexivity|].
  intros y Hy. apply H. right. exact Hy.
Qed.

Lemma flat_map_length_ge {X Y} (f : X -> list Y) ls :
  (forall x, f x <> []) -> List.length ls <= List.length (flat_map f ls).
Proof.
  intros H. induction ls as [|x ls IH]; [apply Nat.le_refl|].
  cbn [flat_map]. rewrite length_app. specialize (H x).
  destruct (f x); [congruence | cbn [List.length]; lia].
Qed.

(** The words of the formatted text are the words of the input, line
    by line and in order, the label of a header line counting as a word
    of its own; for a text without header lines they are the words of
    the input text. *)
Theorem formatter_keeps_words :
  forall n t,
    Str.split_ws (Claims.format n t)
    = flat_map line_words (Claims.lines_of t)
    /\ ((forall l, In l (Claims.lines_of t) -> is_header l = false) ->
        Str.split_ws (Claims.format n t) = Str.split_ws t).
Proof.
  intros n t.
  assert (H1 : Str.split_ws (Claims.format n t)
               = flat_map line_words (Claims.lines_of t)).
  { rewrite format_eq, split_ws_lines. unfold words_of.
    rewrite flat_map_flat_map. apply flat_map_ext. intros l.
    apply (format_line_words n l). }
  split; [exact H1|]. intros Hplain. rewrite H1.
  rewrite <- (join_split t) at 2. rewrite split_ws_lines. unfold words_of.
  fold (Claims.lines_of t). apply flat_map_same.
  intros l Hl. apply line_words_plain, Hplain, Hl.
Qed.

Lemma formatter_keeps_words_witness :
  Str.split_ws (Claims.format 2 "one two  three  four five")
  = Str.split_ws "one two  three  four five".
Proof.
  destruct (formatter_keeps_words 2 "one two  three  four five") as [_ H].
  apply H. intros l [<-|[]]. reflexivity.
Defined.

(** Every line of the input gives at least one line of the output: the
    formatter only adds line breaks. *)
Theorem formatter_never_drops_lines :
  forall n t,
    List.length (Claims.lines_of t)
    <= List.length (Claims.lines_of (Claims.format n t)).
Proof.
  intros n t. rewrite lines_of_format.
  apply flat_map_length_ge. apply format_line_nonempty.
Qed.

(** With a setting of at least one word, one run is enough for the word
    bound: every line of the output that is neither a header line nor a
    line kept as a separator has at most that many words. *)
Theorem one_run_bounds_lines :
  forall n t line,
    (1 <= n)%Z ->
    In line (Claims.lines_of (Claims.format n t)) ->
    is_header line = false ->
    Str.startswith (Str.strip line) "====" = false ->
    (Z.of_nat (Claims.word_count line) <= n)%Z.
Proof.
  intros n t line Hn Hin Hh Hsep. rewrite lines_of_format in Hin.
  apply in_flat_map in Hin as [l [_ Hin]].
  assert (Hchunk : chunk_line n line -> (Z.of_nat (Claims.word_count line) <= n)%Z).
  { intros [chunk [-> [_ [Hw Hs]]]]. unfold Claims.word_count.
    rewrite (split_ws_join _ Hw). destruct Hs as [Hs|Hs]; lia. }
  destruct (is_header l) eqn:Hl.
  - destruct (is_header_inv _ Hl) as [hp [rest [Hhp E]]].
    pose proof (format_line_labelled n hp rest Hhp) as F. rewrite <- E in F.
    rewrite F in Hin.
    assert (Hself : In line [l] -> (Z.of_nat (Claims.word_count line) <= n)%Z)
      by (intros [<-|[]]; congruence).
    destruct (negb (Str.is_empty (Str.strip rest))); [|auto].
    pose proof (wrap_chunks n _ (split_ws_valid (Str.strip rest))) as Hc.
    destruct (wrap n (Str.split_ws (Str.strip rest))) as [|first others]; [auto|].
    destruct Hin as [<-|Hin].
    + change (hp ++ ": " ++ first) with (hp ++ ":" ++ String " " first) in Hh.
      rewrite (labelled_is_header _ _ Hhp) in Hh. discriminate.
    + inversion Hc as [|? ? _ Hothers]; subst.
      apply Hchunk. exact (proj1 (Forall_forall _ _) Hothers line Hin).
  - rewrite (format_line_plain _ _ Hl) in Hin.
    destruct (Str.is_empty (Str.strip l)) eqn:He; cbn [orb] in Hin.
    + destruct Hin as [<-|[]]. unfold Claims.word_count.
      rewrite (blank_no_words _ He). cbn. lia.
    + destruct (Str.startswith (Str.strip l) "====") eqn:Hs.
      * destruct Hin as [<-|[]]. congruence.
      * destruct (Z.of_nat (List.length (Str.split_ws l)) >? n)%Z eqn:Hgt.
        -- apply Hchunk.
           exact (proj1 (Forall_forall _ _)
                    (wrap_chunks n _ (split_ws_valid l)) line Hin).
        -- destruct Hin as [<-|[]]. unfold Claims.word_count. lia.
Qed.

Lemma one_run_bounds_lines_witness :
  (Z.of_nat (Claims.word_count "three four") <= 2)%Z.
Proof.
  apply (one_run_bounds_lines 2 "Reason: one two three four five" "three four");
    [lia | vm_compute; tauto | reflexivity | reflexivity].
Defined.

(** A text whose lines are no header lines and hold at most the set
    number of words each comes back unchanged, byte for byte. *)
Theorem short_text_unchanged :
  forall n t,
    (forall l, In l (Claims.lines_of t) ->
               is_header l = false
               /\ (Z.of_nat (Claims.word_count l) <= n)%Z) ->
    Claims.format n t = t.
Proof.
  intros n t H. rewrite format_eq. rewrite <- (join_split t) at 2.
  fold (Claims.lines_of t). f_equal. apply flat_map_stable.
  apply Forall_forall. intros l Hl. destruct (H l Hl) as [Hh Hk].
  unfold stable. rewrite (format_line_plain _ _ Hh).
  destruct (Str.is_empty (Str.strip l) || Str.startswith (Str.strip l) "====");
    [reflexivity|].
  unfold Claims.word_count in Hk.
  destruct (Z.of_nat (List.length (Str.split_ws l)) >? n)%Z eqn:E; [lia | reflexivity].
Qed.

Lemma short_text_unchanged_witness :
  Claims.format 3 ("  spaced   out  " ++ Log.nl ++ "and short")
  = "  spaced   out  " ++ Log.nl ++ "and short".
Proof.
  apply short_text_unchanged.
  intros l [<-|[<-|[]]]; (split; [reflexivity | vm_compute; discriminate]).
Defined.

(** The number of lines written for one input line, with a setting of
    at least one word: a line that is neither kept nor a header gives
    as many lines as its number of words divided by the setting, rounded
    up; a header line with content gives as many as the number of words
    of its content divided by the setting, rounded up, and the first of
    them carries the label. *)
Theorem line_count_of_wrapped_line :
  forall n,
    (1 <= n)%Z ->
    (forall l,
        is_header l = false ->
        Str.is_empty (Str.strip l) || Str.startswith (Str.strip l) "====" = false ->
        List.length (format_line n l)
        = (Claims.word_count l + Z.to_nat n - 1) / Z.to_nat n)
    /\ (forall hp rest,
          In hp header_parts ->
          Str.is_empty (Str.strip rest) = false ->
          List.length (format_line n (hp ++ ":" ++ rest))
          = (Claims.word_count rest + Z.to_nat n - 1) / Z.to_nat n
          /\ exists first others,
               format_line n (hp ++ ":" ++ rest)
               = (hp ++ ": " ++ first) :: others).
Proof.
  intros n Hn. split.
  - intros l Hh Hkept. rewrite (format_line_plain _ _ Hh), Hkept.
    apply orb_false_elim in Hkept as [He _].
    pose proof (visible_has_words _ He) as Hne. unfold Claims.word_count.
    destruct (Z.of_nat (List.length (Str.split_ws l)) >? n)%Z eqn:E.
    + apply wrap_length, Hn.
    + cbn [List.length]. symmetry. apply ceil_small.
      * destruct (Str.split_ws l); [congruence | cbn; lia].
      * lia.
  - intros hp rest Hhp He. rewrite (format_line_labelled _ _ _ Hhp), He.
    cbn [negb]. pose proof (visible_has_words _ He) as Hne.
    rewrite <- split_ws_strip in Hne.
    pose proof (wrap_length n (Str.split_ws (Str.strip rest)) Hn) as Hl.
    pose proof (wrap_nonempty n _ Hne) as Hw.
    assert (Hk : List.length (Str.split_ws (Str.strip rest))
                 = List.length (Str.split_ws rest))
      by (rewrite split_ws_strip; reflexivity).
    rewrite Hk in Hl. unfold Claims.word_count.
    destruct (wrap n (Str.split_ws (Str.strip rest))) as [|first others];
      [congruence|].
    split; [exact Hl | eauto].
Qed.

Lemma line_count_of_wrapped_line_witness :
  List.length (format_line 2 "one two three four five") = 3.
Proof.
  destruct (line_count_of_wrapped_line 2) as [H _]; [lia|].
  rewrite (H "one two three four five"); reflexivity.
Defined.

(** With a setting of zero or less every word of a line that is neither
    kept nor a header is written on a line of its own. *)
Theorem nonpositive_setting_one_word_per_line :
  forall n l,
    (n <= 0)%Z ->
    is_header l = false ->
    Str.is_empty (Str.strip l) || Str.startswith (Str.strip l) "====" = false ->
    format_line n l = Str.split_ws l.
Proof.
  intros n l Hn Hh Hkept. rewrite (format_line_plain _ _ Hh), Hkept.
  apply orb_false_elim in Hkept as [He _].
  pose proof (visible_has_words _ He) as Hne.
  assert (Hgt : (Z.of_nat (List.length (Str.split_ws l)) >? n)%Z = true).
  { apply Z.gtb_lt. destruct (Str.split_ws l); [congruence | cbn [List.length]; lia]. }
  rewrite Hgt. unfold wrap.
  assert (Hloop : forall ws out, wrap_loop n ws [] out = ([], (out ++ ws)%list)).
  { induction ws as [|w ws IH]; intros out;
      [rewrite app_nil_r; reflexivity|].
    cbn [wrap_loop app List.length].
    assert (Hge : (Z.of_nat 1 >=? n)%Z = true) by (rewrite Z.geb_leb; apply Z.leb_le; lia).
    rewrite Hge, IH, <- app_assoc. reflexivity. }
  rewrite Hloop. reflexivity.
Qed.

Lemma nonpositive_setting_one_word_per_line_witness :
  format_line 0 "one two three" = ["one"; "two"; "three"].
Proof.
  exact (nonpositive_setting_one_word_per_line 0 "one two three"
           ltac:(lia) eq_refl eq_refl).
Defined.

(** [main] writes the whole formatted text or nothing: when the input
    cannot be read or the output cannot be opened, the output file is
    left as it was; otherwise it holds the text formatted with fifteen
    words per line, and the printed counts are the words of the input
    and the lines of the output, which are at least the lines of the
    input.  A [FileNotFoundError] from opening the output is reported
    like a missing input file. *)
Theorem formatter_main_all_or_nothing :
  forall input cannot_write output,
    match input, cannot_write with
    | inr content, None =>
        FormatMain.main input cannot_write output
        = (Some (Claims.format 15 content),
           FormatMain.Formatted (Claims.word_count content)
             (List.length (Claims.lines_of (Claims.format 15 content))))
        /\ List.length (Claims.lines_of content)
           <= List.length (Claims.lines_of (Claims.format 15 content))
    | inr _, Some e =>
        FormatMain.main input cannot_write output
        = FormatMain.main (inl e) None output
    | inl _, _ => fst (FormatMain.main input cannot_write output) = output
    end.
Proof.
  intros [e|content] [e'|] output; try reflexivity.
  split; [reflexivity|]. rewrite lines_of_format.
  apply flat_map_length_ge. apply format_line_nonempty.
Qed.

End FormatterLaws.

(** ** Invariants of the verdict *)

Section VerdictFacts.
Import Re Aux Aux2 Parser.

Lemma rstrip_idempotent s : Str.rstrip (Str.rstrip s) = Str.rstrip s.
Proof.
  induction s as [|c s IH]; [reflexivity|]. cbn [Str.rstrip].
  destruct (Chr.isspace c && Str.is_empty (Str.rstrip s)) eqn:E; [reflexivity|].
  cbn [Str.rstrip]. rewrite IH, E. reflexivity.
Qed.

(** Stripping twice is stripping once. *)
Lemma strip_idempotent s : Str.strip (Str.strip s) = Str.strip s.
Proof.
  destruct (strip_cases s) as [E | [c [r [E Hc]]]]; rewrite E; [reflexivity|].
  rewrite (strip_visible _ _ Hc). f_equal.
  assert (H : Str.rstrip (String c r) = String c r).
  { rewrite <- E. unfold Str.strip. apply rstrip_idempotent. }
  rewrite (rstrip_visible _ _ Hc) in H. injection H as H. exact H.
Qed.

Lemma contains_chr_lstrip x s :
  Str.contains_chr x s = false -> Str.contains_chr x (Str.lstrip s) = false.
Proof.
  induction s as [|c s IH]; intros H; [reflexivity|]. cbn [Str.lstrip].
  destruct (Chr.isspace c); [|exact H].
  cbn [Str.contains_chr] in H. apply orb_false_elim in H as [_ H]. apply IH, H.
Qed.

Lemma contains_chr_rstrip x s :
  Str.contains_chr x s = false -> Str.contains_chr x (Str.rstrip s) = false.
Proof.
  induction s as [|c s IH]; intros H; [reflexivity|]. cbn [Str.rstrip].
  cbn [Str.contains_chr] in H. apply orb_false_elim in H as [Hc H].
  destruct (Chr.isspace c && Str.is_empty (Str.rstrip s)); [reflexivity|].
  cbn [Str.contains_chr]. rewrite Hc, (IH H). reflexivity.
Qed.

Lemma take_while_not_newline s :
  Str.contains_chr Chr.newline (take_while not_newline s) = false.
Proof.
  induction s as [|c s IH]; [reflexivity|]. cbn [take_while].
  unfold not_newline at 1. destruct (Ascii.eqb c Chr.newline) eqn:Hc;
    cbn [negb]; [reflexivity|].
  cbn [Str.contains_chr]. rewrite Hc, IH. reflexivity.
Qed.

(** What the group of the name pattern captures holds no line feed. *)
Lemma name_re_one_line s g :
  name_re s = Some g -> Str.contains_chr Chr.newline g = false.
Proof.
  unfold name_re. intros H.
  apply lit_sound in H as [lab [r1 [_ [_ H]]]].
  apply star_sound in H as [ws [r2 [_ [_ H]]]].
  destruct r2 as [|c r2]; [discriminate|]. cbn [plus_group] in H.
  destruct (not_newline c) eqn:Hc; [|discriminate].
  rewrite star_group_group1 in H. injection H as <-.
  cbn [append Str.contains_chr]. rewrite take_while_not_newline.
  unfold not_newline in Hc. apply negb_true_iff in Hc. rewrite Hc. reflexivity.
Qed.

(** The name and the summary of every verdict are stripped texts, and
    the name is one line: whatever the oracle answers, the name holds no
    line feed and neither field opens or closes with whitespace. *)
Theorem verdict_fields_are_stripped :
  forall analysis,
    let v := parse_response analysis in
    Str.strip (person_name v) = person_name v
    /\ Str.strip (summary v) = summary v
    /\ Str.contains_chr Chr.newline (person_name v) = false.
Proof.
  intros analysis v. subst v. unfold parse_response.
  cbn [person_name summary]. splits.
  - destruct (search name_re analysis); [apply strip_idempotent | reflexivity].
  - destruct (search summary_re analysis); [apply strip_idempotent | reflexivity].
  - destruct (search name_re analysis) as [g|] eqn:E; [|reflexivity].
    apply search_spec in E as [pre [u [_ [Hu _]]]].
    apply name_re_one_line in Hu.
    unfold Str.strip. apply contains_chr_rstrip, contains_chr_lstrip, Hu.
Qed.

End VerdictFacts.
